(** * Spotify widget for VS Code: the PKCE authenticator, the poller and the
      command relay of [extension.js], embedded as Rocq functions.

    The module-level variables of the extension ([accessToken],
    [tokenExpiresAt], [lastTrackId], [pendingCodeVerifier], [spotifyPanel],
    [updateInterval]) and the host's durable key-value store
    ([context.globalState]) form one explicit [World]; every [async function]
    becomes a function in a small state-and-exception monad over that world.
    What the host and the network answer (HTTP responses, the clock, the
    user's choices in dialogs, random bytes) is passed in as arguments, and
    everything the extension does to the outside (messages shown, requests
    sent, processes spawned) is appended to a trace kept in the world. *)

From Stdlib Require Import ZArith String Ascii List Bool Lia.
From stdpp Require Import base option gmap strings pretty.
Import ListNotations.

Local Open Scope Z_scope.
Local Open Scope string_scope.

(** ** Strings *)

(** [String.prototype.includes]: [sub] occurs somewhere in [s]. *)
Fixpoint includes (sub s : string) : bool :=
  String.prefix sub s ||
  match s with
  | EmptyString => false
  | String _ s' => includes sub s'
  end.

(** [s.replace(/c/g, r)] for a one-character pattern [c]. *)
Fixpoint replace_all (c : ascii) (r : string) (s : string) : string :=
  match s with
  | EmptyString => EmptyString
  | String x s' =>
      if Ascii.eqb x c then r +:+ replace_all c r s'
      else String x (replace_all c r s')
  end.

(** [Array.prototype.join] on strings. *)
Fixpoint join (sep : string) (l : list string) : string :=
  match l with
  | [] => ""
  | [x] => x
  | x :: rest => x +:+ sep +:+ join sep rest
  end.

(** The bytes of a string (the strings of the model are byte strings, that
    is, JavaScript strings in their UTF-8 encoding). *)
Definition bytes_of_string (s : string) : list Z :=
  map (fun c => Z.of_N (N_of_ascii c)) (list_ascii_of_string s).

(** ** Base64, as [Buffer.prototype.toString('base64')] produces it *)

Definition base64_alphabet : string :=
  "ABCDEFGHIJKLMNOPQRSTUVWXYZabcdefghijklmnopqrstuvwxyz0123456789+/".

Definition char_at (alphabet : string) (i : Z) : ascii :=
  match String.get (Z.to_nat i) alphabet with
  | Some c => c
  | None => "="%char
  end.

(** The four 6-bit groups of a 3-byte group. *)
Definition sextet0 (a : Z) : Z := Z.land (Z.shiftr a 2) 63.
Definition sextet1 (a b : Z) : Z :=
  Z.land (Z.lor (Z.shiftl (Z.land a 3) 4) (Z.shiftr (Z.land b 255) 4)) 63.
Definition sextet2 (b c : Z) : Z :=
  Z.land (Z.lor (Z.shiftl (Z.land b 15) 2) (Z.shiftr (Z.land c 255) 6)) 63.
Definition sextet3 (c : Z) : Z := Z.land c 63.

Fixpoint toString_base64 (buffer : list Z) : string :=
  match buffer with
  | [] => ""
  | [a] =>
      String (char_at base64_alphabet (sextet0 a))
        (String (char_at base64_alphabet (sextet1 a 0)) "==")
  | [a; b] =>
      String (char_at base64_alphabet (sextet0 a))
        (String (char_at base64_alphabet (sextet1 a b))
           (String (char_at base64_alphabet (sextet2 b 0)) "="))
  | a :: b :: c :: rest =>
      String (char_at base64_alphabet (sextet0 a))
        (String (char_at base64_alphabet (sextet1 a b))
           (String (char_at base64_alphabet (sextet2 b c))
              (String (char_at base64_alphabet (sextet3 c))
                 (toString_base64 rest))))
  end.

(** [base64URLEncode(buffer)]: the three [replace] calls of the source, in
    their order. *)
Definition base64URLEncode (buffer : list Z) : string :=
  replace_all "="%char ""
    (replace_all "/"%char "_"
       (replace_all "+"%char "-" (toString_base64 buffer))).

(** The three replacements alone, on any string. *)
Definition url_safe (s : string) : string :=
replace_all "="%char "" (replace_all "/"%char "_" (replace_all "+"%char "-" s)).

(** The reference the specification names: base64url of RFC 4648 section 5
    (alphabet ending in [-] and [_]), written without padding.  It follows
    the specification's words, not the source, and is compared with
    [base64URLEncode] below. *)
Definition base64url_alphabet : string :=
  "ABCDEFGHIJKLMNOPQRSTUVWXYZabcdefghijklmnopqrstuvwxyz0123456789-_".

Fixpoint base64url_nopad_ref (buffer : list Z) : string :=
  match buffer with
  | [] => ""
  | [a] =>
      String (char_at base64url_alphabet (sextet0 a))
        (String (char_at base64url_alphabet (sextet1 a 0)) "")
  | [a; b] =>
      String (char_at base64url_alphabet (sextet0 a))
        (String (char_at base64url_alphabet (sextet1 a b))
           (String (char_at base64url_alphabet (sextet2 b 0)) ""))
  | a :: b :: c :: rest =>
      String (char_at base64url_alphabet (sextet0 a))
        (String (char_at base64url_alphabet (sextet1 a b))
           (String (char_at base64url_alphabet (sextet2 b c))
              (String (char_at base64url_alphabet (sextet3 c))
                 (base64url_nopad_ref rest))))
  end.

(** ** SHA-256 (FIPS 180-4), as [crypto.createHash('sha256')] computes it *)

Module SHA256.

Definition mask32 (x : Z) : Z := Z.land x 0xffffffff.
Definition add32 (x y : Z) : Z := mask32 (x + y).
Definition rotr (n x : Z) : Z :=
  mask32 (Z.lor (Z.shiftr x n) (Z.shiftl x (32 - n))).
Definition not32 (x : Z) : Z := Z.lxor x 0xffffffff.

Definition Ch (x y z : Z) : Z :=
  Z.lxor (Z.land x y) (Z.land (not32 x) z).
Definition Maj (x y z : Z) : Z :=
  Z.lxor (Z.lxor (Z.land x y) (Z.land x z)) (Z.land y z).
Definition Sigma0 (x : Z) : Z :=
  Z.lxor (Z.lxor (rotr 2 x) (rotr 13 x)) (rotr 22 x).
Definition Sigma1 (x : Z) : Z :=
  Z.lxor (Z.lxor (rotr 6 x) (rotr 11 x)) (rotr 25 x).
Definition sigma0 (x : Z) : Z :=
  Z.lxor (Z.lxor (rotr 7 x) (rotr 18 x)) (Z.shiftr x 3).
Definition sigma1 (x : Z) : Z :=
  Z.lxor (Z.lxor (rotr 17 x) (rotr 19 x)) (Z.shiftr x 10).

(** The constants are defined as the standard derives them: the first 32
    bits of the fractional parts of the cube roots (for [K]) and of the
    square roots (for [H0]) of the first primes. *)
Definition is_prime (n : Z) : bool :=
  Z.ltb 1 n &&
  forallb (fun d => negb (Z.eqb (n mod d) 0))
    (map Z.of_nat (seq 2 (Z.to_nat n - 2))).

Definition primes_below (n : nat) : list Z :=
  filter is_prime (map Z.of_nat (seq 0 n)).

(** The integer cube root, one bit at a time from bit [bits - 1] down. *)
Fixpoint cube_root (bits : nat) (n r : Z) : Z :=
  match bits with
  | O => r
  | S b =>
      let r' := r + Z.shiftl 1 (Z.of_nat b) in
      cube_root b n (if Z.leb (r' * r' * r') n then r' else r)
  end.

Definition K : list Z :=
  map (fun p => mask32 (cube_root 36 (Z.shiftl p 96) 0)) (primes_below 312).

Definition H0 : list Z :=
  map (fun p => mask32 (Z.sqrt (Z.shiftl p 64))) (primes_below 20).

(** Big-endian bytes of a word of [n] bytes. *)
Fixpoint be_bytes (n : nat) (x : Z) : list Z :=
  match n with
  | O => []
  | S n' => Z.land (Z.shiftr x (8 * Z.of_nat n')) 255 :: be_bytes n' x
  end.

(** Padding: a 1 bit, zero bits up to 56 modulo 64 bytes, and the message
    length in bits on 8 bytes. *)
Definition pad (msg : list Z) : list Z :=
  let len := Z.of_nat (length msg) in
  let zeros := Z.to_nat ((55 - len) mod 64) in
  msg ++ [0x80] ++ repeat 0 zeros ++ be_bytes 8 (8 * len).

Fixpoint words_of_bytes (l : list Z) : list Z :=
  match l with
  | a :: b :: c :: d :: rest =>
      Z.lor (Z.shiftl (Z.land a 255) 24)
        (Z.lor (Z.shiftl (Z.land b 255) 16)
           (Z.lor (Z.shiftl (Z.land c 255) 8) (Z.land d 255)))
      :: words_of_bytes rest
  | _ => []
  end.

(** Blocks of 16 words; [fuel] bounds the number of blocks. *)
Fixpoint blocks (fuel : nat) (ws : list Z) : list (list Z) :=
  match fuel, ws with
  | S fuel', _ :: _ => firstn 16 ws :: blocks fuel' (skipn 16 ws)
  | _, _ => []
  end.

(** The message schedule, most recent word first: [rev_w] holds
    W(t-1), W(t-2), ... *)
Fixpoint extend (n : nat) (rev_w : list Z) : list Z :=
  match n with
  | O => rev_w
  | S n' =>
      let w := add32 (add32 (sigma1 (nth 1 rev_w 0)) (nth 6 rev_w 0))
                     (add32 (sigma0 (nth 14 rev_w 0)) (nth 15 rev_w 0)) in
      extend n' (w :: rev_w)
  end.

Definition schedule (block : list Z) : list Z :=
  rev (extend 48 (rev block)).

Record regs := Regs { ra : Z; rb : Z; rc : Z; rd : Z;
                      re : Z; rf : Z; rg : Z; rh : Z }.

Definition round (r : regs) (kw : Z * Z) : regs :=
  let t1 := add32 (add32 (add32 (rh r) (Sigma1 (re r)))
                         (add32 (Ch (re r) (rf r) (rg r)) (fst kw)))
                  (snd kw) in
  let t2 := add32 (Sigma0 (ra r)) (Maj (ra r) (rb r) (rc r)) in
  Regs (add32 t1 t2) (ra r) (rb r) (rc r) (add32 (rd r) t1) (re r) (rf r) (rg r).

Definition regs_of (h : list Z) : regs :=
  Regs (nth 0 h 0) (nth 1 h 0) (nth 2 h 0) (nth 3 h 0)
       (nth 4 h 0) (nth 5 h 0) (nth 6 h 0) (nth 7 h 0).

Definition list_of (r : regs) : list Z :=
  [ra r; rb r; rc r; rd r; re r; rf r; rg r; rh r].

Definition compress (h : list Z) (block : list Z) : list Z :=
  let r := fold_left round (combine K (schedule block)) (regs_of h) in
  map (fun p => add32 (fst p) (snd p)) (combine h (list_of r)).

Definition digest (msg : list Z) : list Z :=
  let ws := words_of_bytes (pad msg) in
  let h := fold_left compress (blocks (length ws) ws) H0 in
  concat (map (be_bytes 4) h).

End SHA256.

(** [crypto.createHash('sha256').update(codeVerifier).digest()]. *)
Definition sha256_digest (s : string) : list Z :=
  SHA256.digest (bytes_of_string s).

(** [generateCodeChallenge(codeVerifier)]. *)
Definition generateCodeChallenge (codeVerifier : string) : string :=
  base64URLEncode (sha256_digest codeVerifier).

(** The reference challenge of the specification. *)
Definition challenge_ref (codeVerifier : string) : string :=
  base64url_nopad_ref (sha256_digest codeVerifier).

(** [generateRandomString(length)]; [values] supplies the random bytes that
    [crypto.getRandomValues] writes into the array of [length] bytes. *)
Definition possible : string :=
  "ABCDEFGHIJKLMNOPQRSTUVWXYZabcdefghijklmnopqrstuvwxyz0123456789".

Definition generateRandomString (length : nat) (values : list Z) : string :=
  fold_left
    (fun acc x => acc +:+ String (char_at possible (x mod Z.of_nat (String.length possible))) "")
    (firstn length values) "".

Definition hex_of_bytes (l : list Z) : string :=
  let hexdigits := "0123456789abcdef" in
  fold_right
    (fun b acc => String (char_at hexdigits (Z.shiftr b 4))
                    (String (char_at hexdigits (Z.land b 15)) acc))
    "" l.

(** ** JavaScript values *)

(** The values the extension handles: what [JSON.parse] can produce, plus
    [undefined] and [NaN].  Numbers are the integers (exact for doubles up to
    2^53: instants in milliseconds, durations, status codes) and [NaN];
    an absent property reads as [JUndefined]. *)
#[warnings="-register-all"] Inductive jsval : Type :=
| JUndefined
| JNull
| JBool (b : bool)
| JNum (n : Z)
| JNaN
| JStr (s : string)
| JArr (elems : list jsval)
| JObj (props : list (string * jsval)).

(** What is thrown: every exception of the program is an [Error] object
    (those the program constructs, those of the network layer) or a
    [TypeError] of the engine; both carry a [message] string. *)
Inductive exn : Type :=
| Error (msg : string)
| TypeError (msg : string).

Definition message (e : exn) : string :=
  match e with Error m | TypeError m => m end.

(** ToBoolean. *)
Definition truthy (v : jsval) : bool :=
  match v with
  | JUndefined | JNull | JNaN => false
  | JBool b => b
  | JNum n => negb (Z.eqb n 0)
  | JStr s => negb (String.eqb s "")
  | JArr _ | JObj _ => true
  end.

(** [a || b]. *)
Definition js_or (a b : jsval) : jsval := if truthy a then a else b.

Definition dquote : string := String (ascii_of_nat 34) "".

Definition decimal (n : Z) : string := pretty n.

(** ToString; array elements that are [null] or [undefined] print as the
    empty string, as in [Array.prototype.join]. *)
Fixpoint toString (v : jsval) : string :=
  match v with
  | JUndefined => "undefined"
  | JNull => "null"
  | JBool true => "true"
  | JBool false => "false"
  | JNum n => decimal n
  | JNaN => "NaN"
  | JStr s => s
  | JArr l =>
      join ","
        (map (fun x => match x with
                       | JUndefined | JNull => ""
                       | _ => toString x
                       end) l)
  | JObj _ => "[object Object]"
  end.

(** [null] and [undefined]. *)
Definition nullish (v : jsval) : bool :=
  match v with
  | JUndefined | JNull => true
  | _ => false
  end.

Definition join_element (v : jsval) : string :=
  if nullish v then "" else toString v.

(** [arr.join(sep)] on the elements of an array. *)
Definition array_join (sep : string) (l : list jsval) : string :=
  join sep (map join_element l).

(** Strict equality [===]; arrays and objects are compared by reference, and
    two values obtained from different parses are never the same object. *)
Definition strict_eq (a b : jsval) : bool :=
  match a, b with
  | JUndefined, JUndefined | JNull, JNull => true
  | JBool x, JBool y => Bool.eqb x y
  | JNum x, JNum y => Z.eqb x y
  | JStr x, JStr y => String.eqb x y
  | _, _ => false
  end.

(** Property keys: an identifier after a dot, or an index in brackets. *)
Inductive key : Type :=
| Name (s : string)
| Index (i : nat).

Definition key_string (k : key) : string :=
  match k with
  | Name s => s
  | Index i => decimal (Z.of_nat i)
  end.

Fixpoint assoc (k : string) (props : list (string * jsval)) : jsval :=
  match props with
  | [] => JUndefined
  | (k', v) :: rest => if String.eqb k k' then v else assoc k rest
  end.

(** The value of [v[k]] when [v] is neither [null] nor [undefined].  The
    program reads no property that a prototype provides as a value, so a
    name that is not an own property reads as [undefined]. *)
Definition own_property (v : jsval) (k : key) : jsval :=
  match v, k with
  | JObj props, _ => assoc (key_string k) props
  | JArr l, Index i => nth i l JUndefined
  | JArr l, Name "length" => JNum (Z.of_nat (length l))
  | JStr s, Index i =>
      match String.get i s with
      | Some c => JStr (String c "")
      | None => JUndefined
      end
  | JStr s, Name "length" => JNum (Z.of_nat (String.length s))
  | _, _ => JUndefined
  end.

(** JavaScript numbers of the model: an integer, or [None] for [NaN].
    The product and the sum below are those of [Z]; they are those of the
    program as long as the operands and the result are integers of
    absolute value at most [2 ^ 53], which a number holds exactly. *)
Definition number : Type := option Z.

Definition of_number (x : number) : jsval :=
  match x with Some n => JNum n | None => JNaN end.

Definition num_mul (x y : number) : number :=
  match x, y with Some a, Some b => Some (a * b) | _, _ => None end.

Definition num_add (x y : number) : number :=
  match x, y with Some a, Some b => Some (a + b) | _, _ => None end.

(** ** The outside world *)

(** How the network answers one request: a complete response, an ['error']
    event of the request, or nothing at all. *)
Inductive transport : Type :=
| Answered (statusCode : Z) (data : string)
| Failed (e : exn)
| Silent.

(** What the extension does to its surroundings, in order. *)
Inductive event : Type :=
| ShowErrorMessage (msg : string)
| ShowInformationMessage (msg : string) (items : list string)
| ShowInputBox
| OpenExternal (url : string)
| HttpsGet (hostname path authorization : string)
| HttpsPost (hostname path : string) (form : list (string * string))
| Exec (commandLine : string)
| ConsoleLog (msg : string)
| ConsoleError (msg : string).

(** The module-level variables of [extension.js], the host's durable store
    [context.globalState], the [clientId] setting, and the trace. *)
Record World : Type := mkWorld {
  spotifyPanel : bool;
  updateInterval : option Z;
  accessToken : jsval;
  tokenExpiresAt : jsval;
  lastTrackId : jsval;
  pendingCodeVerifier : jsval;
  globalState : gmap string jsval;
  clientIdSetting : jsval;
  trace : list event
}.

Definition set_accessToken (v : jsval) (w : World) : World :=
  mkWorld (spotifyPanel w) (updateInterval w) v (tokenExpiresAt w)
    (lastTrackId w) (pendingCodeVerifier w) (globalState w)
    (clientIdSetting w) (trace w).

Definition set_tokenExpiresAt (v : jsval) (w : World) : World :=
  mkWorld (spotifyPanel w) (updateInterval w) (accessToken w) v
    (lastTrackId w) (pendingCodeVerifier w) (globalState w)
    (clientIdSetting w) (trace w).

Definition set_lastTrackId (v : jsval) (w : World) : World :=
  mkWorld (spotifyPanel w) (updateInterval w) (accessToken w)
    (tokenExpiresAt w) v (pendingCodeVerifier w) (globalState w)
    (clientIdSetting w) (trace w).

Definition set_pendingCodeVerifier (v : jsval) (w : World) : World :=
  mkWorld (spotifyPanel w) (updateInterval w) (accessToken w)
    (tokenExpiresAt w) (lastTrackId w) v (globalState w)
    (clientIdSetting w) (trace w).

Definition set_globalState (g : gmap string jsval) (w : World) : World :=
  mkWorld (spotifyPanel w) (updateInterval w) (accessToken w)
    (tokenExpiresAt w) (lastTrackId w) (pendingCodeVerifier w) g
    (clientIdSetting w) (trace w).

Definition emit (e : event) (w : World) : World :=
  mkWorld (spotifyPanel w) (updateInterval w) (accessToken w)
    (tokenExpiresAt w) (lastTrackId w) (pendingCodeVerifier w)
    (globalState w) (clientIdSetting w) (trace w ++ [e]).

(** The host's [Memento]: [get] of a key never written is [undefined], and
    [update] with [undefined] removes the key. *)
Definition memento_get (g : gmap string jsval) (k : string) : jsval :=
  default JUndefined (g !! k).

Definition memento_update (g : gmap string jsval) (k : string) (v : jsval)
  : gmap string jsval :=
  match v with
  | JUndefined => delete k g
  | _ => <[k := v]> g
  end.

(** ** The monad of the program *)

(** How a call ends: it returns, it throws, or it awaits a promise that is
    never settled. *)
Inductive completion (A : Type) : Type :=
| Returned (a : A)
| Thrown (e : exn)
| Pending.
Arguments Returned {A} a.
Arguments Thrown {A} e.
Arguments Pending {A}.

Definition M (A : Type) : Type := World -> completion A * World.

#[global] Instance M_ret : MRet M := fun A a w => (Returned a, w).

#[global] Instance M_bind : MBind M := fun A B f m w =>
  match m w with
  | (Returned a, w') => f a w'
  | (Thrown e, w') => (Thrown e, w')
  | (Pending, w') => (Pending, w')
  end.

Definition throw {A} (e : exn) : M A := fun w => (Thrown e, w).

Definition never {A} : M A := fun w => (Pending, w).

(** [try { body } catch (error) { handler }]. *)
Definition try_catch {A} (body : M A) (handler : exn -> M A) : M A :=
  fun w =>
    match body w with
    | (Thrown e, w') => handler e w'
    | r => r
    end.

Definition read {A} (field : World -> A) : M A := fun w => (Returned (field w), w).

Definition modify (f : World -> World) : M unit := fun w => (Returned tt, f w).

Definition log (e : event) : M unit := modify (emit e).

Definition globalState_get (k : string) : M jsval :=
  read (fun w => memento_get (globalState w) k).

Definition globalState_update (k : string) (v : jsval) : M unit :=
  modify (fun w => set_globalState (memento_update (globalState w) k v) w).

(** [v.k] and [v[i]]: a [TypeError] on [null] and [undefined]. *)
Definition get (v : jsval) (k : key) : M jsval :=
  if nullish v then
    throw (TypeError ("Cannot read properties of " +:+ toString v +:+
                      " (reading '" +:+ key_string k +:+ "')"))
  else mret (own_property v k).

(** [v?.k]. *)
Definition get_optional (v : jsval) (k : key) : M jsval :=
  if nullish v then mret JUndefined else mret (own_property v k).

Fixpoint mapM {A B} (f : A -> M B) (l : list A) : M (list B) :=
  match l with
  | [] => mret []
  | x :: rest => y ← f x; ys ← mapM f rest; mret (y :: ys)
  end.

(** [v.map(f)], where [expr] is the source text of [v]: only an array has a
    callable [map]. *)
Definition array_map (expr : string) (v : jsval) (f : jsval -> M jsval)
  : M (list jsval) :=
  match v with
  | JArr l => mapM f l
  | JUndefined | JNull => get v (Name "map");; mret []
  | _ => throw (TypeError (expr +:+ ".map is not a function"))
  end.

(** ** Helpers of the host used by the program *)

(** The white space and line terminators of ECMAScript, which are what
    [String.prototype.trim] removes, each as the bytes of its UTF-8
    encoding: U+0009 to U+000D, U+0020, U+00A0, U+1680, U+2000 to U+200A,
    U+2028, U+2029, U+202F, U+205F, U+3000 and U+FEFF. *)
Definition white_space : list (list nat) :=
  ([[9]; [10]; [11]; [12]; [13]; [32]; [194; 160]; [225; 154; 128]]%nat
   ++ map (fun n => [226; 128; n]%nat) (seq 128 11)
   ++ [[226; 128; 168]; [226; 128; 169]; [226; 128; 175]; [226; 129; 159];
       [227; 128; 128]; [239; 187; 191]]%nat)%list.

(** [after p l] is what follows [p] in [l], when [l] starts with [p]. *)
Fixpoint after (p : list nat) (l : list ascii) : option (list ascii) :=
  match p, l with
  | [], _ => Some l
  | n :: p', c :: l' => if Nat.eqb n (nat_of_ascii c) then after p' l' else None
  | _ :: _, [] => None
  end.

Fixpoint after_any (ps : list (list nat)) (l : list ascii) : option (list ascii) :=
  match ps with
  | [] => None
  | p :: rest =>
      match after p l with
      | Some l' => Some l'
      | None => after_any rest l
      end
  end.

(** Drops the white space [l] starts with; [fuel] bounds the number of
    characters dropped, and the length of [l] is enough. *)
Fixpoint drop_spaces (ps : list (list nat)) (fuel : nat) (l : list ascii) : list ascii :=
  match fuel with
  | O => l
  | S fuel' =>
      match after_any ps l with
      | Some l' => drop_spaces ps fuel' l'
      | None => l
      end
  end.

(** [String.prototype.trim]: white space is dropped at both ends, at the
    end by reading the bytes backwards. *)
Definition trim (s : string) : string :=
  let l := list_ascii_of_string s in
  let l1 := drop_spaces white_space (List.length l) l in
  string_of_list_ascii
    (rev (drop_spaces (map (@rev nat) white_space) (List.length l1) (rev l1))).

Definition unreserved : string :=
  "ABCDEFGHIJKLMNOPQRSTUVWXYZabcdefghijklmnopqrstuvwxyz0123456789-_.!~*'()".

(** [encodeURIComponent], byte by byte. *)
Fixpoint encodeURIComponent (s : string) : string :=
  match s with
  | EmptyString => ""
  | String c rest =>
      (if includes (String c "") unreserved then String c ""
       else
         let n := Z.of_N (N_of_ascii c) in
         String "%"%char
           (String (char_at "0123456789ABCDEF" (Z.shiftr n 4))
              (String (char_at "0123456789ABCDEF" (Z.land n 15)) "")))
      +:+ encodeURIComponent rest
  end.

(** A [vscode.Uri] as the callback receives it; [query] is the list of
    decoded name-value pairs that [new URLSearchParams(uri.query)] holds. *)
Record Uri : Type := mkUri {
  path : string;
  query : list (string * string)
}.

(** [URLSearchParams.prototype.get]: the first value of the name, or [null]. *)
Fixpoint searchParams_get (name : string) (q : list (string * string)) : jsval :=
  match q with
  | [] => JNull
  | (k, v) :: rest => if String.eqb k name then JStr v else searchParams_get name rest
  end.

(** The snapshot handed to the display.  [error] is [JUndefined] where the
    object has no such key. *)
Record TrackInfo : Type := mkTrackInfo {
  isPlaying : jsval;
  track : jsval;
  artist : jsval;
  album : jsval;
  albumArt : jsval;
  progress : jsval;
  duration : jsval;
  error : jsval
}.

(** The three commands the webview sends. *)
Inductive Command : Type := PlayPause | Next | Previous.

(** How [child_process.exec] ends: it throws at the call, or it calls back
    with an error or without one. *)
Inductive ExecOutcome : Type :=
| ExecThrows (e : exn)
| ExecCallback (error : option exn).

(** [`${error}`] for an error object. *)
Definition exn_toString (e : exn) : string :=
  match e with
  | Error m => "Error: " +:+ m
  | TypeError m => "TypeError: " +:+ m
  end.

Definition REDIRECT_URI : string :=
  "https://itsnotalexy.github.io/vscode-spotify-widget-auth/callback".

Definition SCOPES : string :=
  "user-read-playback-state user-modify-playback-state user-read-currently-playing".

(** ** The program *)

Section Extension.

(** Two functions of the engine are taken as they are: [JSON.parse]
    ([None] when it throws a [SyntaxError]) and the conversion of a
    string to a number ([None] for [NaN]). *)
Variable JSON_parse : string -> option jsval.
Variable StringToNumber : string -> number.

(** ToNumber. *)
Definition toNumber (v : jsval) : number :=
  match v with
  | JUndefined | JNaN | JObj _ => None
  | JNull => Some 0
  | JBool b => Some (if b then 1 else 0)
  | JNum n => Some n
  | JStr s => StringToNumber s
  | JArr _ => StringToNumber (toString v)
  end.

(** [a * b]. *)
Definition js_mul (a b : jsval) : number := num_mul (toNumber a) (toNumber b).

(** [now >= v] for a number [now]. *)
Definition js_ge (now : Z) (v : jsval) : bool :=
  match toNumber v with
  | Some e => Z.leb e now
  | None => false
  end.

Definition showErrorMessage (msg : string) : M unit := log (ShowErrorMessage msg).

Definition getClientId : M jsval :=
  c ← read clientIdSetting;
  if truthy c then mret c else mret (JStr "ac8d0a8761004cfbb0b582950be8314c").

(** [activate(context)]: the two reads of the durable store.  (The
    registration of commands and the delayed opening of the panel touch
    none of the state below.) *)
Definition activate : M unit :=
  log (ConsoleLog "Spotify Widget extension is now active");;
  a ← globalState_get "spotifyAccessToken";
  modify (set_accessToken a);;
  t ← globalState_get "spotifyTokenExpiresAt";
  modify (set_tokenExpiresAt t).

Definition exchangeCodeForToken (net : transport)
    (code : string) (codeVerifier clientId : jsval) : M jsval :=
  log (HttpsPost "accounts.spotify.com" "/api/token"
         [("client_id", toString clientId);
          ("grant_type", "authorization_code");
          ("code", code);
          ("redirect_uri", REDIRECT_URI);
          ("code_verifier", toString codeVerifier)]);;
  match net with
  | Answered statusCode data =>
      if Z.eqb statusCode 200 then
        match JSON_parse data with
        | Some tokens => mret tokens
        | None => never
        end
      else throw (Error ("Token exchange failed: " +:+ data))
  | Failed e => throw e
  | Silent => never
  end.

Definition completeAuthentication (now : Z) (net : transport)
    (code : string) (codeVerifier clientId : jsval) : M unit :=
  try_catch
    (tokens ← exchangeCodeForToken net code codeVerifier clientId;
     access_token ← get tokens (Name "access_token");
     modify (set_accessToken access_token);;
     expires_in ← get tokens (Name "expires_in");
     modify (set_tokenExpiresAt
               (of_number (num_add (Some now) (js_mul expires_in (JNum 1000)))));;
     a ← read accessToken;
     globalState_update "spotifyAccessToken" a;;
     t ← read tokenExpiresAt;
     globalState_update "spotifyTokenExpiresAt" t;;
     log (ShowInformationMessage "Successfully authenticated with Spotify!" []))
    (fun error =>
       showErrorMessage ("Authentication failed: " +:+ message error);;
       throw error).

Definition handleAuthCallback (now : Z) (net : transport) (uri : Uri) : M unit :=
  try_catch
    (let code := searchParams_get "code" (query uri) in
     if negb (truthy code) then
       showErrorMessage "No authorization code found in callback"
     else
       p ← read pendingCodeVerifier;
       g ← globalState_get "pendingCodeVerifier";
       let codeVerifier := js_or p g in
       if negb (truthy codeVerifier) then
         showErrorMessage "Authentication session expired. Please try again."
       else
         clientId ← getClientId;
         completeAuthentication now net (toString code) codeVerifier clientId;;
         modify (set_pendingCodeVerifier JNull);;
         globalState_update "pendingCodeVerifier" JUndefined)
    (fun error =>
       showErrorMessage
         ("Failed to handle authentication callback: " +:+ message error)).

Definition authUrl (clientId : jsval) (codeChallenge : string) : string :=
  "https://accounts.spotify.com/authorize?" +:+
  "client_id=" +:+ toString clientId +:+ "&" +:+
  "response_type=code&" +:+
  "redirect_uri=" +:+ encodeURIComponent REDIRECT_URI +:+ "&" +:+
  "scope=" +:+ encodeURIComponent SCOPES +:+ "&" +:+
  "code_challenge_method=S256&" +:+
  "code_challenge=" +:+ codeChallenge +:+ "&" +:+
  "show_dialog=true".

(** [authenticateSpotify(context)].  [values] supplies the random bytes,
    [choice] the button the user picks in the first dialog and
    [manualInput] what the input box returns ([None] for [undefined]). *)
Definition authenticateSpotify (values : list Z) (choice manualInput : option string)
    (now : Z) (net : transport) : M unit :=
  clientId ← getClientId;
  let codeVerifier := generateRandomString 128 values in
  let codeChallenge := generateCodeChallenge codeVerifier in
  modify (set_pendingCodeVerifier (JStr codeVerifier));;
  globalState_update "pendingCodeVerifier" (JStr codeVerifier);;
  log (ShowInformationMessage
         ("You will be redirected to Spotify to authenticate. After authorizing, you can either click "
          +:+ dquote +:+ "Open in VS Code" +:+ dquote +:+
          " on the page or paste the code manually.")
         ["Open Spotify Login"; "Cancel"]);;
  if bool_decide (choice = Some "Open Spotify Login") then
    log (OpenExternal (authUrl clientId codeChallenge));;
    log ShowInputBox;;
    match manualInput with
    | Some input =>
        if negb (String.eqb input "") then
          completeAuthentication now net (trim input) (JStr codeVerifier) clientId
        else mret tt
    | None => mret tt
    end
  else mret tt.

Definition createEmptyTrackInfo (artist album : string) : TrackInfo :=
  {| isPlaying := JBool false;
     track := JNull;
     artist := JStr artist;
     album := JStr album;
     albumArt := JStr "";
     progress := JNum 0;
     duration := JNum 0;
     error := JBool true |}.

(** The request is recorded with its bearer header, and ends as the network
    answers it.  The token is taken to be one that a header can carry, as
    the tokens of the provider are; a token with a control character, for
    which no request leaves, is outside the model. *)
Definition spotifyApiRequest (net : transport) (path : string) : M jsval :=
  a ← read accessToken;
  log (HttpsGet "api.spotify.com" path ("Bearer " +:+ toString a));;
  match net with
  | Answered statusCode data =>
      if Z.eqb statusCode 204 then mret JNull
      else if Z.eqb statusCode 200 then
        match JSON_parse data with
        | Some v => mret v
        | None => throw (Error "Failed to parse response")
        end
      else throw (Error (decimal statusCode +:+ ": " +:+ data))
  | Failed e => throw e
  | Silent => throw (Error "Request timeout")
  end.

(** The body of the [try] block of [getCurrentTrack]. *)
Definition getCurrentTrack_try (net : transport) : M TrackInfo :=
  data ← spotifyApiRequest net "/v1/me/player/currently-playing";
  if negb (truthy data) then
    mret (createEmptyTrackInfo "No track playing" "Start playing music on Spotify")
  else
    item ← get data (Name "item");
    if negb (truthy item) then
      mret (createEmptyTrackInfo "No track playing" "Start playing music on Spotify")
    else
      currentTrackId ← get item (Name "id");
      last ← read lastTrackId;
      (if negb (strict_eq last currentTrackId)
       then modify (set_lastTrackId currentTrackId)
       else mret tt);;
      is_playing ← get data (Name "is_playing");
      name ← get item (Name "name");
      artists ← get item (Name "artists");
      names ← array_map "data.item.artists" artists (fun a => get a (Name "name"));
      album ← get item (Name "album");
      album_name ← get album (Name "name");
      images ← get album (Name "images");
      image ← get images (Index 0);
      url ← get_optional image (Name "url");
      progress_ms ← get data (Name "progress_ms");
      duration_ms ← get item (Name "duration_ms");
      mret {| isPlaying := is_playing;
              track := name;
              artist := JStr (array_join ", " names);
              album := album_name;
              albumArt := js_or url (JStr "");
              progress := js_or progress_ms (JNum 0);
              duration := js_or duration_ms (JNum 0);
              error := JUndefined |}.

(** The [catch] block of [getCurrentTrack]. *)
Definition getCurrentTrack_catch (error : exn) : M TrackInfo :=
  showErrorMessage ("Spotify API error: " +:+ message error);;
  if includes "401" (message error) then
    mret (createEmptyTrackInfo "Authentication expired" "Please re-authenticate")
  else
    mret (createEmptyTrackInfo "Connecting..." "Loading track info").

Definition getCurrentTrack (now : Z) (net : transport) : M TrackInfo :=
  expiry ← read tokenExpiresAt;
  if truthy expiry && js_ge now expiry then
    mret (createEmptyTrackInfo "Token expired" "Please re-authenticate with Spotify")
  else
    token ← read accessToken;
    if negb (truthy token) then
      mret (createEmptyTrackInfo "Not authenticated"
              ("Run " +:+ dquote +:+ "Authenticate with Spotify" +:+ dquote +:+ " command"))
    else
      try_catch (getCurrentTrack_try net) getCurrentTrack_catch.

Definition psCommands (command : Command) : string :=
  match command with
  | PlayPause => "(New-Object -ComObject WScript.Shell).SendKeys([char]179)"
  | Next => "(New-Object -ComObject WScript.Shell).SendKeys([char]176)"
  | Previous => "(New-Object -ComObject WScript.Shell).SendKeys([char]177)"
  end.

(** [sendSpotifyCommand(command)].  The callback of [exec] runs after the
    function has returned; what it logs is put on the same trace. *)
Definition sendSpotifyCommand (outcome : ExecOutcome) (command : Command) : M unit :=
  try_catch
    (log (Exec ("powershell -command " +:+ dquote +:+ psCommands command +:+ dquote));;
     match outcome with
     | ExecThrows e => throw e
     | ExecCallback (Some e) =>
         log (ConsoleError ("Error sending command: " +:+ exn_toString e))
     | ExecCallback None => mret tt
     end)
    (fun error =>
       log (ConsoleError ("Error sending Spotify command: " +:+ exn_toString error));;
       showErrorMessage "Failed to control Spotify. Make sure Spotify is running.").


(** ** Vocabulary of the statements *)

(** The five degraded snapshots of the poller, with the headline and the
    detail each carries. *)
Inductive Degraded : Type :=
| TokenExpired
| NotAuthenticated
| NoTrackPlaying
| AuthenticationExpired
| Connecting.

Definition headline (k : Degraded) : string :=
  match k with
  | TokenExpired => "Token expired"
  | NotAuthenticated => "Not authenticated"
  | NoTrackPlaying => "No track playing"
  | AuthenticationExpired => "Authentication expired"
  | Connecting => "Connecting..."
  end.

Definition detail (k : Degraded) : string :=
  match k with
  | TokenExpired => "Please re-authenticate with Spotify"
  | NotAuthenticated =>
      "Run " +:+ dquote +:+ "Authenticate with Spotify" +:+ dquote +:+ " command"
  | NoTrackPlaying => "Start playing music on Spotify"
  | AuthenticationExpired => "Please re-authenticate"
  | Connecting => "Loading track info"
  end.

Definition degraded (k : Degraded) : TrackInfo :=
  createEmptyTrackInfo (headline k) (detail k).

(** The path of the only endpoint the poller reads. *)
Definition currently_playing : string := "/v1/me/player/currently-playing".

(** The request the poller sends when it gets as far as the network. *)
Definition poll_request (w : World) : event :=
  HttpsGet "api.spotify.com" currently_playing ("Bearer " +:+ toString (accessToken w)).

(** The expiry check of [getCurrentTrack] fires. *)
Definition expired (now : Z) (w : World) : bool :=
  truthy (tokenExpiresAt w) && js_ge now (tokenExpiresAt w).

(** The poll passes both guards and reaches the request. *)
Definition reaches_request (now : Z) (w : World) : bool :=
  negb (expired now w) && truthy (accessToken w).

(** [v.name] for a value that is neither [null] nor [undefined]. *)
Definition field (v : jsval) (name : string) : jsval := own_property v (Name name).

(** [names] lists, in order, the strings the elements of the array hold
    under [name]. *)
Definition named (elements : list jsval) (names : list string) : Prop :=
  map (fun a => field a "name") elements = map JStr names.

(** The request of the token exchange. *)
Definition token_request (code : string) (codeVerifier clientId : jsval) : event :=
  HttpsPost "accounts.spotify.com" "/api/token"
    [("client_id", toString clientId);
     ("grant_type", "authorization_code");
     ("code", code);
     ("redirect_uri", REDIRECT_URI);
     ("code_verifier", toString codeVerifier)].

(** The verifier a redirect finds: the variable, else the durable copy. *)
Definition pending_verifier (w : World) : jsval :=
  js_or (pendingCodeVerifier w) (memento_get (globalState w) "pendingCodeVerifier").

(** The client identifier in use. *)
Definition client_id (w : World) : jsval :=
  if truthy (clientIdSetting w) then clientIdSetting w
  else JStr "ac8d0a8761004cfbb0b582950be8314c".

(** The credential is what it was in [w]: both variables and the whole
    durable store. *)
Definition same_credential (w w' : World) : Prop :=
  accessToken w' = accessToken w
  /\ tokenExpiresAt w' = tokenExpiresAt w
  /\ globalState w' = globalState w.

(** Nothing but the trace differs between [w] and [w']. *)
Definition only_trace (w w' : World) : Prop :=
  spotifyPanel w' = spotifyPanel w
  /\ updateInterval w' = updateInterval w
  /\ accessToken w' = accessToken w
  /\ tokenExpiresAt w' = tokenExpiresAt w
  /\ lastTrackId w' = lastTrackId w
  /\ pendingCodeVerifier w' = pendingCodeVerifier w
  /\ globalState w' = globalState w
  /\ clientIdSetting w' = clientIdSetting w.

(** The exchange is rejected with [e]: an error of the network, or an
    answer with a status other than 200. *)
Definition exchange_fails (net : transport) (e : exn) : Prop :=
  net = Failed e
  \/ exists statusCode data,
       statusCode <> 200 /\ net = Answered statusCode data
       /\ e = Error ("Token exchange failed: " +:+ data).

Definition session_expired : event :=
  ShowErrorMessage "Authentication session expired. Please try again.".

(** The command line [sendSpotifyCommand] hands to [exec]. *)
Definition command_line (command : Command) : string :=
  "powershell -command " +:+ dquote +:+ psCommands command +:+ dquote.

(** Every character of [s] satisfies [p]. *)
Fixpoint string_forallb (p : ascii -> bool) (s : string) : bool :=
  match s with
  | EmptyString => true
  | String c rest => p c && string_forallb p rest
  end.

(** The character occurs in the alphabet. *)
Definition char_in (alphabet : string) (c : ascii) : bool :=
  includes (String c "") alphabet.

(** The variables of the credential agree with their durable copies. *)
Definition in_sync (w : World) : Prop :=
  accessToken w = memento_get (globalState w) "spotifyAccessToken"
  /\ tokenExpiresAt w = memento_get (globalState w) "spotifyTokenExpiresAt".

(** The world once a completion has installed the [tokens] it obtained at
    [now]. *)
Definition installed (now : Z) (tokens : jsval) (w : World) : World :=
  let token := field tokens "access_token" in
  let expiry :=
    of_number (num_add (Some now) (js_mul (field tokens "expires_in") (JNum 1000))) in
  emit (ShowInformationMessage "Successfully authenticated with Spotify!" [])
    (set_globalState
       (memento_update
          (memento_update (globalState w) "spotifyAccessToken" token)
          "spotifyTokenExpiresAt" expiry)
       (set_tokenExpiresAt expiry (set_accessToken token w))).

(** The message of the engine when a property of [null] or [undefined] is
    read. *)
Definition cannot_read (v : jsval) (k : key) : string :=
  "Cannot read properties of " +:+ toString v +:+
  " (reading '" +:+ key_string k +:+ "')".

(** The first dialog of [authenticateSpotify]. *)
Definition login_prompt : event :=
  ShowInformationMessage
    ("You will be redirected to Spotify to authenticate. After authorizing, you can either click "
     +:+ dquote +:+ "Open in VS Code" +:+ dquote +:+
     " on the page or paste the code manually.")
    ["Open Spotify Login"; "Cancel"].

(** What a completion leaves alone whatever its outcome: everything but the
    credential and the trace, the stored verifier included. *)
Definition outside_credential (w w' : World) : Prop :=
  spotifyPanel w' = spotifyPanel w
  /\ updateInterval w' = updateInterval w
  /\ lastTrackId w' = lastTrackId w
  /\ pendingCodeVerifier w' = pendingCodeVerifier w
  /\ memento_get (globalState w') "pendingCodeVerifier"
     = memento_get (globalState w) "pendingCodeVerifier"
  /\ clientIdSetting w' = clientIdSetting w.

(** What a poll leaves alone: everything but [lastTrackId] and the trace. *)
Definition outside_poll (w w' : World) : Prop :=
  spotifyPanel w' = spotifyPanel w
  /\ updateInterval w' = updateInterval w
  /\ accessToken w' = accessToken w
  /\ tokenExpiresAt w' = tokenExpiresAt w
  /\ pendingCodeVerifier w' = pendingCodeVerifier w
  /\ globalState w' = globalState w
  /\ clientIdSetting w' = clientIdSetting w.

(** The integers that a JavaScript number holds without rounding: sums and
    products of such integers that stay in this range are exact, so the
    arithmetic of [Z] is the arithmetic of the program there. *)
Definition safe_integer (n : Z) : Prop := - 2 ^ 53 <= n <= 2 ^ 53.

(** The characters that a value of an HTTP header may hold in any case:
    the tab and the printable ASCII characters. A request whose header
    holds another control character is refused before it is sent. *)
Definition header_char (c : ascii) : bool :=
  let n := nat_of_ascii c in
  (Nat.eqb n 9 || (Nat.leb 32 n && Nat.leb n 126))%bool.

Definition header_safe (v : jsval) : Prop :=
  string_forallb header_char (toString v) = true.

(** A fresh extension host: the initial values of the module-level
    variables, over the durable store and the settings of [w]. *)
Definition restart (w : World) : World :=
  mkWorld false None JNull JNull JNull JNull (globalState w) (clientIdSetting w) [].

(** A call started in [w] returns and [Q] holds, or throws and [E] holds;
    it does not stay pending. *)
Definition settles {A} (m : M A) (w : World)
    (Q : A -> World -> Prop) (E : exn -> World -> Prop) : Prop :=
  match m w with
  | (Returned a, w') => Q a w'
  | (Thrown e, w') => E e w'
  | (Pending, _) => False
  end.

(** ** The panel and its timer *)

Definition set_spotifyPanel (b : bool) (w : World) : World :=
  mkWorld b (updateInterval w) (accessToken w) (tokenExpiresAt w)
    (lastTrackId w) (pendingCodeVerifier w) (globalState w)
    (clientIdSetting w) (trace w).

Definition set_updateInterval (t : option Z) (w : World) : World :=
  mkWorld (spotifyPanel w) t (accessToken w) (tokenExpiresAt w)
    (lastTrackId w) (pendingCodeVerifier w) (globalState w)
    (clientIdSetting w) (trace w).

(** What the extension asks of the window and of the timers. *)
Inductive host_event : Type :=
| Reveal
| CreateWebviewPanel
| SetHtml (html : string)
| PostMessage (data : TrackInfo)
| SetInterval (handle : Z) (ms : jsval)
| ClearInterval (handle : Z)
| ExecuteCommand (command argument : string).

(** The extension host around the module: the [refreshInterval] setting
    ([JUndefined] when unset), the interval timers that are running, the
    number of handles issued so far, whether the [onDidDispose] callback of
    the panel is registered, and what was asked of the window. *)
Record Host : Type := mkHost {
  world : World;
  refreshIntervalSetting : jsval;
  timers : list Z;
  issued : Z;
  disposeRegistered : bool;
  asked : list host_event
}.

Definition set_world (w : World) (h : Host) : Host :=
  mkHost w (refreshIntervalSetting h) (timers h) (issued h)
    (disposeRegistered h) (asked h).

Definition ask (e : host_event) (h : Host) : Host :=
  mkHost (world h) (refreshIntervalSetting h) (timers h) (issued h)
    (disposeRegistered h) (asked h ++ [e]).

(** [setInterval(callback, ms)]: a fresh handle, and the timer runs. *)
Definition setInterval (ms : jsval) (h : Host) : Z * Host :=
  let handle := issued h + 1 in
  (handle,
   ask (SetInterval handle ms)
     (mkHost (world h) (refreshIntervalSetting h) (handle :: timers h) handle
        (disposeRegistered h) (asked h))).

(** [clearInterval(handle)]. *)
Definition clearInterval (handle : Z) (h : Host) : Host :=
  ask (ClearInterval handle)
    (mkHost (world h) (refreshIntervalSetting h)
       (filter (fun t => negb (Z.eqb t handle)) (timers h)) (issued h)
       (disposeRegistered h) (asked h)).

Definition set_disposeRegistered (b : bool) (h : Host) : Host :=
  mkHost (world h) (refreshIntervalSetting h) (timers h) (issued h) b (asked h).

(** How [getWebviewContent] ends: [fs.readFileSync] returns the text of
    [webview.html] or throws. *)
Inductive FileRead : Type :=
| FileContent (text : string)
| FileError (e : exn).

(** The callback given to [spotifyPanel.onDidDispose]. *)
Definition onDidDispose (h : Host) : Host :=
  let h1 := set_world (set_spotifyPanel false (world h)) h in
  match updateInterval (world h1) with
  | Some t =>
      let h2 := clearInterval t h1 in
      set_world (set_updateInterval None (world h2)) h2
  | None => h1
  end.

(** The panel is disposed, by the user or by [spotifyPanel.dispose()]: the
    callback runs if it was registered, once. *)
Definition panel_disposed (h : Host) : Host :=
  if disposeRegistered h then onDidDispose (set_disposeRegistered false h) else h.

(** The command [spotify-widget.hide]. *)
Definition hide (h : Host) : Host :=
  if spotifyPanel (world h) then panel_disposed h else h.

(** [config.get('refreshInterval', 1000)]. *)
Definition refreshInterval (h : Host) : jsval :=
  match refreshIntervalSetting h with
  | JUndefined => JNum 1000
  | v => v
  end.

(** [createOrShowSpotifyWidget(context)]. *)
Definition createOrShowSpotifyWidget (content : FileRead) (h : Host)
  : completion unit * Host :=
  if spotifyPanel (world h) then (Returned tt, ask Reveal h)
  else
    let h1 := ask CreateWebviewPanel (set_world (set_spotifyPanel true (world h)) h) in
    match content with
    | FileError e => (Thrown e, h1)
    | FileContent html =>
        let h2 := ask (SetHtml html) h1 in
        let (handle, h3) := setInterval (refreshInterval h2) h2 in
        let h4 := set_world (set_updateInterval (Some handle) (world h3)) h3 in
        (Returned tt, set_disposeRegistered true h4)
    end.

(** [deactivate()]. *)
Definition deactivate (h : Host) : Host :=
  match updateInterval (world h) with
  | Some t => clearInterval t h
  | None => h
  end.


(** An [async] function of the module run inside the host. *)
Definition lift {A} (m : M A) (h : Host) : completion A * Host :=
  let (c, w') := m (world h) in (c, set_world w' h).

(** [spotifyPanel.webview.postMessage({command: 'updateTrack', data})]: a
    [TypeError] when [spotifyPanel] is [null] by now. *)
Definition postUpdateTrack (data : TrackInfo) (h : Host) : completion unit * Host :=
  if spotifyPanel (world h) then (Returned tt, ask (PostMessage data) h)
  else (Thrown (TypeError "Cannot read properties of null (reading 'webview')"), h).

(** [const trackInfo = await getCurrentTrack(); spotifyPanel.webview.postMessage(...)],
    as the timer and the message handler both do.  [disposedMeanwhile] says
    whether the panel is disposed while the poll is awaited. *)
Definition fetchAndPost (now : Z) (net : transport) (disposedMeanwhile : bool)
    (h : Host) : completion unit * Host :=
  match lift (getCurrentTrack now net) h with
  | (Returned trackInfo, h1) =>
      postUpdateTrack trackInfo (if disposedMeanwhile then panel_disposed h1 else h1)
  | (Thrown e, h1) => (Thrown e, h1)
  | (Pending, h1) => (Pending, h1)
  end.

(** The callback given to [setInterval]. *)
Definition onInterval (now : Z) (net : transport) (disposedMeanwhile : bool)
    (h : Host) : completion unit * Host :=
  if spotifyPanel (world h) then fetchAndPost now net disposedMeanwhile h
  else (Returned tt, h).

(** The callback given to [webview.onDidReceiveMessage]; [command] is
    [message.command]. *)
Definition onDidReceiveMessage (command : jsval) (outcome : ExecOutcome)
    (now : Z) (net : transport) (disposedMeanwhile : bool) (h : Host)
  : completion unit * Host :=
  if strict_eq command (JStr "playPause") then lift (sendSpotifyCommand outcome PlayPause) h
  else if strict_eq command (JStr "next") then lift (sendSpotifyCommand outcome Next) h
  else if strict_eq command (JStr "previous") then lift (sendSpotifyCommand outcome Previous) h
  else if strict_eq command (JStr "getCurrentTrack") then
    fetchAndPost now net disposedMeanwhile h
  else (Returned tt, h).

(** ** The earlier definitions of the authenticator

    The file holds an earlier [getClientId] and an earlier
    [authenticateSpotify], without the redirect channel. *)

(** [config.get('clientId', '')]. *)
Definition earlier_getClientId (w : World) : jsval :=
  match clientIdSetting w with
  | JUndefined => JStr ""
  | v => v
  end.

Definition earlier_prompt : event :=
  ShowInformationMessage
    "You will be redirected to Spotify to authenticate. After authorizing, copy the code from the page and paste it here."
    ["Open Spotify Login"].

(** The part of the earlier [authenticateSpotify] after the check of the
    client identifier. *)
Definition earlier_authenticate (clientId : jsval) (values : list Z)
    (choice codeInput : option string) (now : Z) (net : transport) : M unit :=
  let codeVerifier := generateRandomString 128 values in
  let codeChallenge := generateCodeChallenge codeVerifier in
  log earlier_prompt;;
  if bool_decide (choice = Some "Open Spotify Login") then
    log (OpenExternal (authUrl clientId codeChallenge));;
    log ShowInputBox;;
    match codeInput with
    | Some input =>
        if negb (String.eqb input "") then
          try_catch
            (tokens ← exchangeCodeForToken net (trim input) (JStr codeVerifier) clientId;
             access_token ← get tokens (Name "access_token");
             modify (set_accessToken access_token);;
             expires_in ← get tokens (Name "expires_in");
             modify (set_tokenExpiresAt
                       (of_number (num_add (Some now) (js_mul expires_in (JNum 1000)))));;
             a ← read accessToken;
             globalState_update "spotifyAccessToken" a;;
             t ← read tokenExpiresAt;
             globalState_update "spotifyTokenExpiresAt" t;;
             log (ShowInformationMessage "Successfully authenticated with Spotify!" []))
            (fun error =>
               showErrorMessage ("Authentication failed: " +:+ message error))
        else mret tt
    | None => mret tt
    end
  else mret tt.

(** The earlier [authenticateSpotify(context)]; [response] is the button
    picked in the dialog shown when no client identifier is set. *)
Definition earlier_authenticateSpotify (values : list Z)
    (response choice codeInput : option string) (now : Z) (net : transport)
    (h : Host) : completion unit * Host :=
  let clientId := earlier_getClientId (world h) in
  if negb (truthy clientId) then
    let h1 :=
      set_world
        (emit (ShowInformationMessage
                 "Please set your Spotify Client ID in settings first."
                 ["Open Settings"]) (world h)) h in
    if bool_decide (response = Some "Open Settings") then
      (Returned tt,
       ask (ExecuteCommand "workbench.action.openSettings" "spotifyWidget.clientId") h1)
    else (Returned tt, h1)
  else lift (earlier_authenticate clientId values choice codeInput now net) h.

(** The timer is in order: at most one runs, it is the one [updateInterval]
    holds, and none runs while [spotifyPanel] is [null]. *)
Definition timer_ok (h : Host) : Prop :=
  match timers h with
  | [] => True
  | [t] => updateInterval (world h) = Some t /\ spotifyPanel (world h) = true
  | _ => False
  end.

(** A host that has just loaded the module. *)
Definition host_fresh (w : World) (setting : jsval) : Host :=
  mkHost (restart w) setting [] 0 false [].

(** ** Concrete inputs for the examples *)

(** A currently-playing payload with two artists and one album image. *)
Definition demo_payload : jsval :=
  JObj [("is_playing", JBool true);
        ("progress_ms", JNum 1200);
        ("item",
         JObj [("id", JStr "track-1");
               ("name", JStr "Song");
               ("duration_ms", JNum 200000);
               ("artists", JArr [JObj [("name", JStr "Artist A")];
                                 JObj [("name", JStr "Artist B")]]);
               ("album",
                JObj [("name", JStr "Album");
                      ("images", JArr [JObj [("url", JStr "https://i.scdn.co/image/1")]])])])].

(** A token response. *)
Definition demo_tokens : jsval :=
  JObj [("access_token", JStr "BQD-token");
        ("token_type", JStr "Bearer");
        ("expires_in", JNum 3600)].

(** A stand-in for [JSON.parse] that knows three bodies. *)
Definition demo_parse (s : string) : option jsval :=
  if String.eqb s "track" then Some demo_payload
  else if String.eqb s "tokens" then Some demo_tokens
  else if String.eqb s "null" then Some JNull
  else None.

(** A stand-in for [JSON.parse] that knows the empty object. *)
Definition parse_empty_object (s : string) : option jsval :=
  if String.eqb s "{}" then Some (JObj []) else None.

(** A stand-in for the conversion of strings to numbers; the examples
    convert none. *)
Definition demo_number (s : string) : number := None.

(** The 128 bytes of a verifier, as the generator of the host may give
    them. *)
Definition demo_random : list Z :=
  map (fun i => (Z.of_nat i * 37 + 11) mod 256) (seq 0 128).

(** The extension as loaded, never authenticated. *)
Definition w_fresh : World :=
  mkWorld false None JNull JUndefined JNull JNull ∅ JUndefined [].

(** Authenticated, with a token that expires at instant 5000. *)
Definition w_authenticated : World :=
  mkWorld true (Some 1) (JStr "BQD-token") (JNum 5000) JNull JNull
    (<["spotifyAccessToken" := JStr "BQD-token"]>
       (<["spotifyTokenExpiresAt" := JNum 5000]> ∅))
    JUndefined [].

(** A token but no recorded expiry. *)
Definition w_no_expiry : World :=
  mkWorld true (Some 1) (JStr "BQD-token") JUndefined JNull JNull
    (<["spotifyAccessToken" := JStr "BQD-token"]> ∅) JUndefined [].

(** An authentication under way: the verifier is stored in both places. *)
Definition w_pending : World :=
  mkWorld false None JNull JUndefined JNull (JStr "verifier")
    (<["pendingCodeVerifier" := JStr "verifier"]> ∅) JUndefined [].

(** The redirect of the provider. *)
Definition uri_callback : Uri := mkUri "/auth" [("code", "AQD-code")].


(** A host with no panel, as after loading. *)
Definition h_idle : Host := mkHost w_fresh JUndefined [] 0 false [].

(** A host that shows the panel and polls with timer 1. *)
Definition h_showing : Host :=
  mkHost w_authenticated JUndefined [1] 1 true
    [CreateWebviewPanel; SetHtml "<html></html>"; SetInterval 1 (JNum 1000)].

(** A redirect without a code. *)
Definition uri_no_code : Uri := mkUri "/auth" [("error", "access_denied")].


(** A host whose settings hold a client identifier. *)
Definition h_configured : Host :=
  mkHost (mkWorld false None JNull JUndefined JNull JNull ∅ (JStr "my-client-id") [])
    (JNum 500) [] 0 false [].

(** * Properties *)

(** ** The code challenge *)

Section Base64.

(** Lists three elements at a time, as the encoders consume them. *)
Lemma list_ind3 (P : list Z -> Prop) :
P [] ->
(forall a, P [a]) ->
(forall a b, P [a; b]) ->
(forall a b c rest, P rest -> P (a :: b :: c :: rest)) ->
forall l, P l.
Proof.
intros H0 H1 H2 H3 l.
enough (P l /\ (forall a, P (a :: l)) /\ (forall a b, P (a :: b :: l))) by tauto.
induction l as [|x l (IH0 & IH1 & IH2)]; repeat split; auto.
Qed.

Lemma forallb_below (p : Z -> bool) (n : nat) :
forallb p (map Z.of_nat (seq 0 n)) = true ->
forall i, 0 <= i < Z.of_nat n -> p i = true.
Proof.
intros H i Hi.
rewrite forallb_forall in H. apply H.
apply in_map_iff. exists (Z.to_nat i). split; [lia|].
apply in_seq. lia.
Qed.

Lemma land_63_range (x : Z) : 0 <= Z.land x 63 < 64.
Proof.
change 63 with (Z.ones 6). rewrite Z.land_ones by lia.
apply Z.mod_pos_bound. lia.
Qed.

Lemma url_safe_cons (c : ascii) (s : string) :
url_safe (String c s) = url_safe (String c "") +:+ url_safe s.
Proof.
unfold url_safe. simpl.
destruct (Ascii.eqb c "+") eqn:Hplus; simpl.
- reflexivity.
- destruct (Ascii.eqb c "/") eqn:Hslash; simpl.
+ reflexivity.
+ destruct (Ascii.eqb c "="); reflexivity.
Qed.

(** On the characters of the standard alphabet the replacements give the
character of the URL-safe alphabet at the same index. *)
Lemma url_safe_char (i : Z) :
0 <= i < 64 ->
url_safe (String (char_at base64_alphabet i) "")
= String (char_at base64url_alphabet i) "".
Proof.
intros Hi.
apply String.eqb_eq.
apply (forallb_below
       (fun i => String.eqb (url_safe (String (char_at base64_alphabet i) ""))
                   (String (char_at base64url_alphabet i) "")) 64);
[vm_compute; reflexivity | exact Hi].
Qed.

Lemma url_safe_sextet (x : Z) (s : string) :
url_safe (String (char_at base64_alphabet (Z.land x 63)) s)
= String (char_at base64url_alphabet (Z.land x 63)) (url_safe s).
Proof.
rewrite url_safe_cons, url_safe_char by apply land_63_range. reflexivity.
Qed.

Lemma base64URLEncode_ref (buffer : list Z) :
base64URLEncode buffer = base64url_nopad_ref buffer.
Proof.
change (base64URLEncode buffer) with (url_safe (toString_base64 buffer)).
induction buffer as [|a|a b|a b c rest IH] using list_ind3;
cbn [toString_base64 base64url_nopad_ref];
unfold sextet0, sextet1, sextet2, sextet3;
rewrite ?url_safe_sextet; try rewrite IH; reflexivity.
Qed.

Lemma includes_char_cons (c x : ascii) (s : string) :
includes (String c "") (String x s)
= (Ascii.eqb c x || includes (String c "") s)%bool.
Proof.
cbn. destruct (ascii_dec c x) as [->|Hne].
- rewrite Ascii.eqb_refl. destruct s; reflexivity.
- apply Ascii.eqb_neq in Hne. rewrite Hne. reflexivity.
Qed.

(** Removing a character leaves no occurrence of it. *)
Lemma replace_all_removed (c : ascii) (s : string) :
includes (String c "") (replace_all c "" s) = false.
Proof.
induction s as [|x s IH]; [reflexivity|].
cbn [replace_all]. destruct (Ascii.eqb x c) eqn:Hx.
- exact IH.
- rewrite includes_char_cons, Ascii.eqb_sym, Hx, IH. reflexivity.
Qed.

End Base64.

(** C4. The code challenge is a function of the verifier alone: it is the
  standard base64 text of the SHA-256 digest of the verifier in which
  every [+] is replaced by [-], every [/] by [_] and every [=] is removed,
  and that text is the unpadded base64url encoding of the digest as RFC
  4648 defines it. *)
Theorem generateCodeChallenge_base64url_sha256 (codeVerifier : string) :
generateCodeChallenge codeVerifier
= replace_all "="%char ""
    (replace_all "/"%char "_"
       (replace_all "+"%char "-" (toString_base64 (sha256_digest codeVerifier))))
/\ generateCodeChallenge codeVerifier = challenge_ref codeVerifier
/\ includes "=" (generateCodeChallenge codeVerifier) = false.
Proof.
split; [reflexivity|]. split.
- apply base64URLEncode_ref.
- unfold generateCodeChallenge, base64URLEncode.
  apply replace_all_removed.
Qed.


(** ** Rules for [settles] *)

(** Unfolds the operations of the monad, leaving the calls of the program
    folded. *)
Ltac unfold_monad :=
  cbv beta iota zeta delta
    [mbind M_bind mret M_ret throw never read modify log try_catch
     showErrorMessage globalState_get globalState_update].

Section Rules.

Context {A B : Type}.

Lemma settles_ret (a : A) w Q E : Q a w -> settles (mret a) w Q E.
Proof. intros H. exact H. Qed.

Lemma settles_throw (e : exn) w (Q : A -> World -> Prop) E :
  E e w -> settles (throw e) w Q E.
Proof. intros H. exact H. Qed.

Lemma settles_bind (m : M A) (f : A -> M B) w Q E :
  settles m w (fun a w' => settles (f a) w' Q E) E ->
  settles (m ≫= f) w Q E.
Proof.
  unfold settles, mbind, M_bind.
  destruct (m w) as [[a|e|] w']; auto.
Qed.

Lemma settles_try_catch (body : M A) (handler : exn -> M A) w Q E :
  settles body w Q (fun e w' => settles (handler e) w' Q E) ->
  settles (try_catch body handler) w Q E.
Proof.
  unfold settles, try_catch.
  destruct (body w) as [[a|e|] w']; auto.
Qed.

Lemma settles_mono (m : M A) w (Q Q' : A -> World -> Prop) (E E' : exn -> World -> Prop) :
  settles m w Q E ->
  (forall a w', Q a w' -> Q' a w') ->
  (forall e w', E e w' -> E' e w') ->
  settles m w Q' E'.
Proof.
  unfold settles. destruct (m w) as [[a|e|] w']; auto.
Qed.

Lemma settles_read (field : World -> A) w Q E :
  Q (field w) w -> settles (read field) w Q E.
Proof. intros H. exact H. Qed.

Lemma settles_returns (m : M A) w Q :
  settles m w Q (fun _ _ => False) ->
  exists a w', m w = (Returned a, w') /\ Q a w'.
Proof.
  unfold settles. destruct (m w) as [[a|e|] w']; [eauto | tauto | tauto].
Qed.

End Rules.

Lemma settles_modify (f : World -> World) w Q E :
  Q tt (f w) -> settles (modify f) w Q E.
Proof. intros H. exact H. Qed.

Lemma settles_log (e : event) w Q E :
  Q tt (emit e w) -> settles (log e) w Q E.
Proof. intros H. exact H. Qed.

Lemma get_nonnullish v k w :
  nullish v = false -> get v k w = (Returned (own_property v k), w).
Proof. unfold get. intros ->. reflexivity. Qed.

Lemma settles_get v k w Q (E : exn -> World -> Prop) :
  (nullish v = false -> Q (own_property v k) w) ->
  (forall msg, nullish v = true -> E (TypeError msg) w) ->
  settles (get v k) w Q E.
Proof.
  unfold settles, get. destruct (nullish v); cbn; auto.
Qed.

Lemma settles_get_optional v k w Q (E : exn -> World -> Prop) :
  Q (if nullish v then JUndefined else own_property v k) w ->
  settles (get_optional v k) w Q E.
Proof.
  unfold settles, get_optional. destruct (nullish v); cbn; auto.
Qed.

(** Reading one property of every element: all the reads succeed, or the
    first [null] or [undefined] element throws; the world is not touched. *)
Lemma mapM_get k l w :
  mapM (fun a => get a k) l w =
    (if forallb (fun a => negb (nullish a)) l
     then Returned (map (fun a => own_property a k) l)
     else fst (mapM (fun a => get a k) l w),
     w)
  /\ (forallb (fun a => negb (nullish a)) l = false ->
      exists msg, fst (mapM (fun a => get a k) l w) = Thrown (TypeError msg)).
Proof.
  induction l as [|a l [IH1 IH2]]; cbn [mapM forallb map].
  - split; [reflexivity | discriminate].
  - unfold mbind, M_bind, get at 1 3 5.
    destruct (nullish a) eqn:Ha; cbn.
    + split; [reflexivity | eauto].
    + rewrite IH1.
      destruct (forallb (fun a0 => negb (nullish a0)) l) eqn:Hall; cbn.
      * split; [reflexivity | discriminate].
      * destruct (IH2 eq_refl) as [msg Hmsg].
        rewrite Hmsg. split; [reflexivity | eauto].
Qed.

Lemma settles_array_map_get expr v k w Q (E : exn -> World -> Prop) :
  (forall l, v = JArr l -> forallb (fun a => negb (nullish a)) l = true ->
             Q (map (fun a => own_property a k) l) w) ->
  (forall msg, E (TypeError msg) w) ->
  settles (array_map expr v (fun a => get a k)) w Q E.
Proof.
  intros HQ HE. unfold settles, array_map.
  destruct v as [| |b|n| |s|l|props]; cbn; unfold_monad; cbn; auto.
  destruct (mapM_get k l w) as [H1 H2]. rewrite H1.
  destruct (forallb _ l) eqn:Hall.
  - apply HQ; [reflexivity | exact Hall].
  - destruct (H2 eq_refl) as [msg ->]. apply HE.
Qed.


(** One step of a proof of [settles], by the shape of the call. *)
Ltac mstep :=
  cbv beta;
  lazymatch goal with
  | |- settles (mbind _ _) _ _ _ => apply settles_bind
  | |- settles (mret _) _ _ _ => apply settles_ret
  | |- settles (throw _) _ _ _ => apply settles_throw
  | |- settles (get _ _) _ _ _ => apply settles_get; [intros ? | intros ? ?]
  | |- settles (get_optional _ _) _ _ _ => apply settles_get_optional
  | |- settles (read _) _ _ _ => apply settles_read
  | |- settles (modify _) _ _ _ => apply settles_modify
  | |- settles (log _) _ _ _ => apply settles_log
  | |- settles (showErrorMessage _) _ _ _ => apply settles_log
  | |- settles (array_map _ _ _) _ _ _ =>
      apply settles_array_map_get; [intros ? ? ? | intros ?]
  | |- settles (try_catch _ _) _ _ _ => apply settles_try_catch
  | |- settles (if ?b then _ else _) _ _ _ => destruct b eqn:?
  | |- settles (match ?x with _ => _ end) _ _ _ => destruct x eqn:?
  end.

(** ** The poller *)

(** What the request layer does with each answer of the network; the
    request is sent in every case. *)
Lemma spotifyApiRequest_run net path w :
  spotifyApiRequest net path w =
    (match net with
     | Answered statusCode data =>
         if Z.eqb statusCode 204 then Returned JNull
         else if Z.eqb statusCode 200 then
           match JSON_parse data with
           | Some v => Returned v
           | None => Thrown (Error "Failed to parse response")
           end
         else Thrown (Error (decimal statusCode +:+ ": " +:+ data))
     | Failed e => Thrown e
     | Silent => Thrown (Error "Request timeout")
     end,
     emit (HttpsGet "api.spotify.com" path ("Bearer " +:+ toString (accessToken w))) w).
Proof.
  unfold spotifyApiRequest. unfold_monad.
  destruct net as [statusCode data|e|]; cbn; try reflexivity.
  destruct (Z.eqb statusCode 204); [reflexivity|].
  destruct (Z.eqb statusCode 200); [|reflexivity].
  destruct (JSON_parse data); reflexivity.
Qed.

(** The [catch] block returns one of two snapshots, after showing the
    message. *)
Lemma getCurrentTrack_catch_run e w :
  getCurrentTrack_catch e w =
    (Returned (if includes "401" (message e)
               then degraded AuthenticationExpired else degraded Connecting),
     emit (ShowErrorMessage ("Spotify API error: " +:+ message e)) w).
Proof.
  unfold getCurrentTrack_catch. unfold_monad. cbn.
  destruct (includes "401" (message e)); reflexivity.
Qed.

(** Outside the two guards [getCurrentTrack] is its [try] and [catch]. *)
Lemma getCurrentTrack_polls now net w :
  reaches_request now w = true ->
  getCurrentTrack now net w = try_catch (getCurrentTrack_try net) getCurrentTrack_catch w.
Proof.
  unfold reaches_request, expired, getCurrentTrack. unfold_monad.
  intros H. apply andb_true_iff in H as [H1 H2].
  apply negb_true_iff in H1. rewrite H1, H2. reflexivity.
Qed.

(** The [try] block returns "no track playing" or a snapshot without the
    [error] key, or it throws; it never stays pending. *)
Lemma getCurrentTrack_try_settles net w :
  settles (getCurrentTrack_try net) w
    (fun snap _ => snap = degraded NoTrackPlaying \/ error snap = JUndefined)
    (fun _ _ => True).
Proof.
  unfold getCurrentTrack_try.
  apply settles_bind.
  unfold settles at 1. rewrite spotifyApiRequest_run.
  destruct net as [statusCode data|e|]; [|exact I|exact I].
  destruct (Z.eqb statusCode 204).
  { repeat mstep; first [exact I | left; reflexivity | right; reflexivity]. }
  destruct (Z.eqb statusCode 200); [|exact I].
  destruct (JSON_parse data) as [v|]; [|exact I].
  repeat mstep; first [exact I | left; reflexivity | right; reflexivity].
Qed.

Lemma getCurrentTrack_settles now net w :
  settles (getCurrentTrack now net) w
    (fun snap _ => error snap = JUndefined \/ exists k, snap = degraded k)
    (fun _ _ => False).
Proof.
  unfold getCurrentTrack.
  mstep. mstep. mstep.
  { mstep. right. exists TokenExpired. reflexivity. }
  mstep. mstep. mstep.
  { mstep. right. exists NotAuthenticated. reflexivity. }
  apply settles_try_catch.
  eapply settles_mono; [apply getCurrentTrack_try_settles | |].
  - intros snap _ [->|H]; [right; exists NoTrackPlaying; reflexivity | left; exact H].
  - intros e w' _. unfold settles. rewrite getCurrentTrack_catch_run.
    right. destruct (includes "401" (message e)); eauto.
Qed.


Lemma truthy_not_nullish v : truthy v = true -> nullish v = false.
Proof. destruct v; cbn; congruence. Qed.

Lemma field_not_nullish v name x : field v name = x -> x <> JUndefined -> nullish v = false.
Proof. destruct v; cbn; congruence. Qed.

Lemma getCurrentTrack_returns now net w :
  exists snap w', getCurrentTrack now net w = (Returned snap, w').
Proof.
  destruct (settles_returns _ _ _ (getCurrentTrack_settles now net w))
    as (snap & w' & H & _).
  eauto.
Qed.

(** C1 (amended). When an expiry is recorded, that is, [tokenExpiresAt] is
    truthy (neither absent, [null], [NaN] nor 0), and the current time has
    reached it, [getCurrentTrack] returns the "token expired" snapshot and
    leaves the world as it was: nothing is sent and nothing is shown.  The
    access token is not looked at and the answer of the network plays no
    part: the check comes before the missing-token check and before the
    request. *)
Theorem getCurrentTrack_token_expired now net w :
  truthy (tokenExpiresAt w) = true ->
  js_ge now (tokenExpiresAt w) = true ->
  getCurrentTrack now net w = (Returned (degraded TokenExpired), w).
Proof.
  intros H1 H2. unfold getCurrentTrack. unfold_monad.
  rewrite H1, H2. reflexivity.
Qed.

(** Where no expiry is recorded the check does not fire: the poll goes on
    to the missing-token check, and with a token to the request. *)
Lemma getCurrentTrack_no_expiry now net w :
  truthy (tokenExpiresAt w) = false ->
  (truthy (accessToken w) = false ->
   getCurrentTrack now net w = (Returned (degraded NotAuthenticated), w))
  /\ (truthy (accessToken w) = true ->
      getCurrentTrack now net w
      = try_catch (getCurrentTrack_try net) getCurrentTrack_catch w).
Proof.
  intros H. split; intros Ht.
  - unfold getCurrentTrack. unfold_monad. rewrite H. cbn [andb].
    rewrite Ht. reflexivity.
  - apply getCurrentTrack_polls. unfold reaches_request, expired.
    rewrite H, Ht. reflexivity.
Qed.

(** A poll that reaches the request and whose request is rejected with
    [e]. *)
Lemma getCurrentTrack_rejected now net w e :
  reaches_request now w = true ->
  fst (spotifyApiRequest net currently_playing w) = Thrown e ->
  getCurrentTrack now net w
  = (Returned (if includes "401" (message e)
               then degraded AuthenticationExpired else degraded Connecting),
     emit (ShowErrorMessage ("Spotify API error: " +:+ message e))
       (emit (poll_request w) w)).
Proof.
  intros Hr He. rewrite getCurrentTrack_polls by exact Hr.
  unfold try_catch, getCurrentTrack_try, mbind, M_bind.
  change "/v1/me/player/currently-playing" with currently_playing.
  rewrite spotifyApiRequest_run in *. cbn [fst] in He. rewrite He.
  apply getCurrentTrack_catch_run.
Qed.

(** C5. A poll that reaches the request never raises: whatever the network
    does, [getCurrentTrack] returns a snapshot.  When the request fails (an
    error of the network, a timeout, a status other than 200 and 204, or a
    200 whose body does not parse) the error message is shown and the
    snapshot is "authentication expired" if the message of the failure
    contains 401, and "connecting" otherwise; a status 401 always gives
    "authentication expired", a timeout and an unparsable body always give
    "connecting". *)
Theorem getCurrentTrack_request_failure now w :
  reaches_request now w = true ->
  let failed msg :=
    (Returned (if includes "401" msg
               then degraded AuthenticationExpired else degraded Connecting),
     emit (ShowErrorMessage ("Spotify API error: " +:+ msg))
       (emit (poll_request w) w)) in
  (forall net, exists snap w', getCurrentTrack now net w = (Returned snap, w'))
  /\ (forall e, getCurrentTrack now (Failed e) w = failed (message e))
  /\ getCurrentTrack now Silent w
     = (Returned (degraded Connecting),
        emit (ShowErrorMessage "Spotify API error: Request timeout")
          (emit (poll_request w) w))
  /\ (forall statusCode data,
        statusCode <> 200 -> statusCode <> 204 ->
        getCurrentTrack now (Answered statusCode data) w
        = failed (decimal statusCode +:+ ": " +:+ data))
  /\ (forall data,
        fst (getCurrentTrack now (Answered 401 data) w)
        = Returned (degraded AuthenticationExpired))
  /\ (forall data,
        JSON_parse data = None ->
        getCurrentTrack now (Answered 200 data) w
        = (Returned (degraded Connecting),
           emit (ShowErrorMessage "Spotify API error: Failed to parse response")
             (emit (poll_request w) w))).
Proof.
  intros Hr failed. split; [|split; [|split; [|split; [|split]]]].
  - intros net. apply getCurrentTrack_returns.
  - intros e. apply (getCurrentTrack_rejected now (Failed e) w e Hr).
    rewrite spotifyApiRequest_run. reflexivity.
  - apply (getCurrentTrack_rejected now Silent w (Error "Request timeout") Hr).
    rewrite spotifyApiRequest_run. reflexivity.
  - intros statusCode data H200 H204.
    apply (getCurrentTrack_rejected now _ w
             (Error (decimal statusCode +:+ ": " +:+ data)) Hr).
    rewrite spotifyApiRequest_run. cbn [fst].
    apply Z.eqb_neq in H200, H204. rewrite H200, H204. reflexivity.
  - intros data.
    rewrite (getCurrentTrack_rejected now (Answered 401 data) w
               (Error (decimal 401 +:+ ": " +:+ data)) Hr)
      by (rewrite spotifyApiRequest_run; reflexivity).
    reflexivity.
  - intros data Hparse.
    apply (getCurrentTrack_rejected now _ w (Error "Failed to parse response") Hr).
    rewrite spotifyApiRequest_run. cbn [fst]. rewrite Hparse. reflexivity.
Qed.

(** C6. On a 204 the request layer resolves to [null], not to an error, and
    a poll that reaches the request turns that [null], and equally a parsed
    body that is falsy or has no truthy [item], into the "no track playing"
    snapshot; nothing but the request leaves the extension. *)
Theorem getCurrentTrack_no_track now w :
  reaches_request now w = true ->
  (forall data path,
     fst (spotifyApiRequest (Answered 204 data) path w) = Returned JNull)
  /\ (forall data,
        getCurrentTrack now (Answered 204 data) w
        = (Returned (degraded NoTrackPlaying), emit (poll_request w) w))
  /\ (forall body v,
        JSON_parse body = Some v ->
        truthy v = false \/ truthy (field v "item") = false ->
        getCurrentTrack now (Answered 200 body) w
        = (Returned (degraded NoTrackPlaying), emit (poll_request w) w)).
Proof.
  intros Hr. split; [|split].
  - intros data path. rewrite spotifyApiRequest_run. reflexivity.
  - intros data. rewrite getCurrentTrack_polls by exact Hr.
    unfold try_catch, getCurrentTrack_try, mbind, M_bind.
    rewrite spotifyApiRequest_run. reflexivity.
  - intros body v Hparse Hv. rewrite getCurrentTrack_polls by exact Hr.
    unfold try_catch, getCurrentTrack_try, mbind, M_bind.
    rewrite spotifyApiRequest_run. cbn [Z.eqb Pos.eqb]. rewrite Hparse.
    destruct (truthy v) eqn:Htruthy; cbn [negb]; [|reflexivity].
    destruct Hv as [Hv|Hv]; [discriminate|].
    rewrite get_nonnullish by (apply truthy_not_nullish; exact Htruthy).
    fold (field v "item"). rewrite Hv. reflexivity.
Qed.


(** ** The mapping of a track *)

Lemma field_object v name :
  field v name <> JUndefined -> name <> "length" -> exists props, v = JObj props.
Proof.
  intros H Hname. destruct v as [| |b|n| |s|l|props]; try (cbn in H; congruence).
  - exfalso. apply H. unfold field. cbn.
    repeat (match goal with |- context [match ?x with _ => _ end] => destruct x end;
            try reflexivity).
    congruence.
  - exfalso. apply H. unfold field. cbn.
    repeat (match goal with |- context [match ?x with _ => _ end] => destruct x end;
            try reflexivity).
    congruence.
  - eauto.
Qed.

Lemma get_optional_field v name w :
  get_optional v (Name name) w = (Returned (field v name), w).
Proof.
  unfold get_optional, field. destruct v; reflexivity.
Qed.

Lemma named_not_nullish elements names :
  named elements names ->
  forallb (fun a => negb (nullish a)) elements = true.
Proof.
  unfold named. revert names.
  induction elements as [|a l IH]; intros [|n ns] H; try discriminate;
    [reflexivity|].
  injection H as Ha Hl. cbn [forallb].
  rewrite (IH ns Hl), (field_not_nullish a "name" (JStr n)) by congruence.
  reflexivity.
Qed.

Lemma join_element_string n : join_element (JStr n) = n.
Proof. reflexivity. Qed.

Lemma named_join sep elements names :
  named elements names ->
  array_join sep (map (fun a => own_property a (Name "name")) elements)
  = join sep names.
Proof.
  unfold named, array_join, field. intros ->. f_equal.
  rewrite map_map. induction names as [|n ns IH]; [reflexivity|].
  cbn [map]. rewrite IH, join_element_string. reflexivity.
Qed.

(** The [try] block on a parsed body with a track item whose [artists] and
    whose album's [images] are arrays. *)
Lemma getCurrentTrack_try_maps body data artists names images w :
  JSON_parse body = Some data ->
  field (field data "item") "artists" = JArr artists ->
  named artists names ->
  field (field (field data "item") "album") "images" = JArr images ->
  exists w',
    getCurrentTrack_try (Answered 200 body) w =
      (Returned
         {| isPlaying := field data "is_playing";
            track := field (field data "item") "name";
            artist := JStr (join ", " names);
            album := field (field (field data "item") "album") "name";
            albumArt := js_or (field (nth 0 images JUndefined) "url") (JStr "");
            progress := js_or (field data "progress_ms") (JNum 0);
            duration := js_or (field (field data "item") "duration_ms") (JNum 0);
            error := JUndefined |},
       w').
Proof.
  intros Hparse Hartists Hnamed Himages.
  destruct (field_object (field data "item") "artists") as [iprops Hitem];
    [congruence | discriminate |].
  destruct (field_object data "item") as [dprops Hdata];
    [congruence | discriminate |].
  destruct (field_object (field (field data "item") "album") "images")
    as [aprops Halbum]; [congruence | discriminate |].
  assert (Htd : truthy data = true) by (rewrite Hdata; reflexivity).
  assert (Hti : truthy (field data "item") = true) by (rewrite Hitem; reflexivity).
  assert (Hnd : nullish data = false) by (rewrite Hdata; reflexivity).
  assert (Hni : nullish (field data "item") = false) by (rewrite Hitem; reflexivity).
  assert (Hna : nullish (field (field data "item") "album") = false)
    by (rewrite Halbum; reflexivity).
  clear Hdata Hitem Halbum.
  unfold getCurrentTrack_try, mbind, M_bind.
  rewrite spotifyApiRequest_run. cbn [Z.eqb Pos.eqb]. rewrite Hparse.
  unfold field in *.
  rewrite Htd. cbn [negb].
  rewrite get_nonnullish by assumption.
  rewrite Hti. cbn [negb].
  rewrite get_nonnullish by assumption.
  unfold read.
  set (w1 := emit _ w).
  assert (Hid : exists w2,
             (if negb (strict_eq (lastTrackId w1)
                         (own_property (own_property data (Name "item")) (Name "id")))
              then modify (set_lastTrackId
                             (own_property (own_property data (Name "item")) (Name "id")))
              else mret tt) w1 = (Returned tt, w2)).
  { destruct (negb _); eexists; reflexivity. }
  destruct Hid as [w2 ->].
  exists w2.
  do 3 (rewrite get_nonnullish by assumption).
  rewrite Hartists.
  unfold array_map. destruct (mapM_get (Name "name") artists w2) as [-> _].
  rewrite (named_not_nullish _ _ Hnamed), (named_join _ _ _ Hnamed).
  do 3 (rewrite get_nonnullish by assumption).
  rewrite Himages.
  rewrite get_nonnullish by reflexivity.
  rewrite get_optional_field.
  do 2 (rewrite get_nonnullish by assumption).
  reflexivity.
Qed.

(** C7. A poll that reaches the request and is answered 200 with a body
    holding a track item (an [item] whose [artists] is an array of objects
    with string names, and whose album has an array of [images]) returns a
    snapshot without the [error] key in which [artist] is the names of all
    the artists joined with [", "], [albumArt] is the [url] of the first
    image, or the empty string when there is no image, and [progress] and
    [duration] are the fields [progress_ms] and [duration_ms], or 0 when
    the field is absent. *)
Theorem getCurrentTrack_maps_track now w body data artists names images :
  reaches_request now w = true ->
  JSON_parse body = Some data ->
  field (field data "item") "artists" = JArr artists ->
  named artists names ->
  field (field (field data "item") "album") "images" = JArr images ->
  exists snap w',
    getCurrentTrack now (Answered 200 body) w = (Returned snap, w')
    /\ error snap = JUndefined
    /\ isPlaying snap = field data "is_playing"
    /\ track snap = field (field data "item") "name"
    /\ artist snap = JStr (join ", " names)
    /\ album snap = field (field (field data "item") "album") "name"
    /\ (images = [] -> albumArt snap = JStr "")
    /\ (forall image rest u,
          images = image :: rest -> field image "url" = JStr u ->
          albumArt snap = JStr u)
    /\ (field data "progress_ms" = JUndefined -> progress snap = JNum 0)
    /\ (forall n, field data "progress_ms" = JNum n -> progress snap = JNum n)
    /\ (field (field data "item") "duration_ms" = JUndefined ->
        duration snap = JNum 0)
    /\ (forall n, field (field data "item") "duration_ms" = JNum n ->
                  duration snap = JNum n).
Proof.
  intros Hr Hparse Hartists Hnamed Himages.
  destruct (getCurrentTrack_try_maps body data artists names images w
              Hparse Hartists Hnamed Himages) as [w' Htry].
  eexists. exists w'. split.
  { rewrite getCurrentTrack_polls by exact Hr.
    unfold try_catch. rewrite Htry. reflexivity. }
  cbn [error isPlaying track artist album albumArt progress duration].
  repeat (split; [reflexivity|]).
  split; [intros ->; reflexivity|].
  split.
  { intros image rest u -> Hu. cbn [nth]. rewrite Hu.
    unfold js_or. destruct (truthy (JStr u)) eqn:Ht; [reflexivity|].
    cbn in Ht. apply negb_false_iff, String.eqb_eq in Ht. congruence. }
  split; [intros ->; reflexivity|].
  split.
  { intros n ->. unfold js_or. cbn.
    destruct (Z.eqb_spec n 0); [subst|]; reflexivity. }
  split; [intros ->; reflexivity|].
  intros n ->. unfold js_or. cbn.
  destruct (Z.eqb_spec n 0); [subst|]; reflexivity.
Qed.

(** C10. [createEmptyTrackInfo] builds the fixed degraded shape, and every
    snapshot [getCurrentTrack] returns either lacks the [error] key (a
    mapped track) or is that shape for one of the five degraded kinds:
    not playing, no track, no album art, progress and duration 0, [error]
    set, the headline in [artist] and the detail in [album]. *)
Theorem getCurrentTrack_degraded_shape now net w :
  (forall first second,
     createEmptyTrackInfo first second
     = mkTrackInfo (JBool false) JNull (JStr first) (JStr second)
         (JStr "") (JNum 0) (JNum 0) (JBool true))
  /\ exists snap w',
       getCurrentTrack now net w = (Returned snap, w')
       /\ (error snap = JUndefined
           \/ exists k,
                snap = mkTrackInfo (JBool false) JNull (JStr (headline k))
                         (JStr (detail k)) (JStr "") (JNum 0) (JNum 0)
                         (JBool true)).
Proof.
  split; [reflexivity|].
  destruct (settles_returns _ _ _ (getCurrentTrack_settles now net w))
    as (snap & w' & Hrun & Hshape).
  exists snap, w'. split; [exact Hrun|].
  destruct Hshape as [H|[k ->]]; [left; exact H | right; exists k; reflexivity].
Qed.


(** ** The durable store *)

Lemma memento_get_update_eq g k v :
  memento_get (memento_update g k v) k = v.
Proof.
  unfold memento_get, memento_update.
  destruct v; rewrite ?lookup_delete_eq, ?lookup_insert_eq; reflexivity.
Qed.

Lemma memento_get_update_ne g k k' v :
  k <> k' -> memento_get (memento_update g k v) k' = memento_get g k'.
Proof.
  intros Hne. unfold memento_get, memento_update.
  destruct v; rewrite ?lookup_delete_ne, ?lookup_insert_ne by exact Hne;
    reflexivity.
Qed.

(** [activate] reloads both variables from the durable store. *)
Lemma activate_run w :
  exists w',
    activate w = (Returned tt, w')
    /\ accessToken w' = memento_get (globalState w) "spotifyAccessToken"
    /\ tokenExpiresAt w' = memento_get (globalState w) "spotifyTokenExpiresAt"
    /\ globalState w' = globalState w.
Proof.
  eexists. split; [reflexivity|]. cbn. auto.
Qed.

(** C8. An expiry instant written to the durable store under
    [spotifyTokenExpiresAt] is read back unchanged, by the store itself and
    by the program: after the write, a fresh extension host that runs
    [activate] holds that instant in [tokenExpiresAt]. *)
Theorem tokenExpiresAt_round_trip (t : Z) :
  (forall g,
     memento_get (memento_update g "spotifyTokenExpiresAt" (JNum t))
       "spotifyTokenExpiresAt" = JNum t)
  /\ (forall w,
        let stored := snd (globalState_update "spotifyTokenExpiresAt" (JNum t) w) in
        fst (globalState_get "spotifyTokenExpiresAt" stored) = Returned (JNum t)
        /\ tokenExpiresAt (snd (activate (restart stored))) = JNum t).
Proof.
  split.
  - intros g. apply memento_get_update_eq.
  - intros w stored. split.
    + unfold stored, globalState_get, globalState_update, read, modify.
      cbn [fst snd globalState set_globalState].
      rewrite memento_get_update_eq. reflexivity.
    + destruct (activate_run (restart stored)) as (w' & Hrun & _ & Ht & _).
      rewrite Hrun. cbn [snd]. rewrite Ht.
      apply memento_get_update_eq.
Qed.

(** ** The authenticator *)

Lemma exchangeCodeForToken_run net code codeVerifier clientId w :
  exchangeCodeForToken net code codeVerifier clientId w =
    (match net with
     | Answered statusCode data =>
         if Z.eqb statusCode 200 then
           match JSON_parse data with
           | Some tokens => Returned tokens
           | None => Pending
           end
         else Thrown (Error ("Token exchange failed: " +:+ data))
     | Failed e => Thrown e
     | Silent => Pending
     end,
     emit (token_request code codeVerifier clientId) w).
Proof.
  unfold exchangeCodeForToken. unfold_monad.
  destruct net as [statusCode data|e|]; cbn; try reflexivity.
  destruct (Z.eqb statusCode 200); [|reflexivity].
  destruct (JSON_parse data); reflexivity.
Qed.

Lemma exchange_fails_thrown net e code codeVerifier clientId w :
  exchange_fails net e ->
  fst (exchangeCodeForToken net code codeVerifier clientId w) = Thrown e.
Proof.
  intros Hfail. rewrite exchangeCodeForToken_run. cbn [fst].
  destruct Hfail as [->|(statusCode & data & Hne & -> & ->)]; [reflexivity|].
  apply Z.eqb_neq in Hne. rewrite Hne. reflexivity.
Qed.

(** A rejected exchange: the error is shown and thrown again, and nothing
    else happens. *)
Lemma completeAuthentication_rejected now net code codeVerifier clientId w e :
  fst (exchangeCodeForToken net code codeVerifier clientId w) = Thrown e ->
  completeAuthentication now net code codeVerifier clientId w
  = (Thrown e,
     emit (ShowErrorMessage ("Authentication failed: " +:+ message e))
       (emit (token_request code codeVerifier clientId) w)).
Proof.
  intros He. unfold completeAuthentication, try_catch, mbind, M_bind.
  rewrite exchangeCodeForToken_run in *. cbn [fst] in He. rewrite He.
  reflexivity.
Qed.

(** An exchange that resolves with a token response. *)
Lemma completeAuthentication_resolved now body tokens code codeVerifier clientId w :
  JSON_parse body = Some tokens ->
  nullish tokens = false ->
  let token := field tokens "access_token" in
  let expiry :=
    of_number (num_add (Some now) (js_mul (field tokens "expires_in") (JNum 1000))) in
  completeAuthentication now (Answered 200 body) code codeVerifier clientId w
  = (Returned tt,
     emit (ShowInformationMessage "Successfully authenticated with Spotify!" [])
       (set_globalState
          (memento_update
             (memento_update (globalState w) "spotifyAccessToken" token)
             "spotifyTokenExpiresAt" expiry)
          (set_tokenExpiresAt expiry
             (set_accessToken token
                (emit (token_request code codeVerifier clientId) w))))).
Proof.
  intros Hparse Hnull token expiry.
  unfold completeAuthentication, try_catch, mbind, M_bind.
  rewrite exchangeCodeForToken_run. cbn [Z.eqb Pos.eqb]. rewrite Hparse.
  rewrite get_nonnullish by assumption. unfold modify at 1.
  rewrite get_nonnullish by assumption.
  reflexivity.
Qed.

(** C3. The completion does not validate the token response. When the
    exchange is answered 200 with a body that parses to a response with a
    numeric [expires_in] (seconds; the instants within the integers that a
    number holds exactly), the credential is replaced, in the variables and
    in the durable store, by the response's [access_token] and by the
    instant [now + expires_in * 1000] in milliseconds. When the response
    has no [expires_in], the credential is replaced all the same: the
    expiry becomes NaN, and the token whatever [access_token] is, undefined
    when it is absent. When the exchange is rejected (an error of the
    network, or a status other than 200), the error is shown and thrown to
    the caller, and the access token, the expiry and the durable store are
    what they were. *)
Theorem completeAuthentication_credential now code codeVerifier clientId w :
  (forall body tokens expires_in,
     JSON_parse body = Some tokens ->
     field tokens "expires_in" = JNum expires_in ->
     safe_integer now ->
     safe_integer (expires_in * 1000) ->
     safe_integer (now + expires_in * 1000) ->
     exists w',
       completeAuthentication now (Answered 200 body) code codeVerifier clientId w
       = (Returned tt, w')
       /\ accessToken w' = field tokens "access_token"
       /\ tokenExpiresAt w' = JNum (now + expires_in * 1000)
       /\ memento_get (globalState w') "spotifyAccessToken"
          = field tokens "access_token"
       /\ memento_get (globalState w') "spotifyTokenExpiresAt"
          = JNum (now + expires_in * 1000))
  /\ (forall body tokens,
        JSON_parse body = Some tokens ->
        nullish tokens = false ->
        field tokens "expires_in" = JUndefined ->
        exists w',
          completeAuthentication now (Answered 200 body) code codeVerifier clientId w
          = (Returned tt, w')
          /\ accessToken w' = field tokens "access_token"
          /\ tokenExpiresAt w' = JNaN
          /\ memento_get (globalState w') "spotifyAccessToken"
             = field tokens "access_token"
          /\ memento_get (globalState w') "spotifyTokenExpiresAt" = JNaN
          /\ trace w'
             = (trace w ++ [token_request code codeVerifier clientId;
                            ShowInformationMessage
                              "Successfully authenticated with Spotify!" []])%list)
  /\ (forall net e,
        exchange_fails net e ->
        exists w',
          completeAuthentication now net code codeVerifier clientId w
          = (Thrown e, w')
          /\ trace w'
             = (trace w ++ [token_request code codeVerifier clientId;
                            ShowErrorMessage ("Authentication failed: " +:+ message e)])%list
          /\ same_credential w w').
Proof.
  split; [|split].
  - intros body tokens expires_in Hparse Hexp _ _ _.
    assert (Hnull : nullish tokens = false)
      by (apply (field_not_nullish _ _ _ Hexp); discriminate).
    eexists. split.
    { exact (completeAuthentication_resolved now body tokens code codeVerifier
               clientId w Hparse Hnull). }
    rewrite Hexp. cbn [trace accessToken tokenExpiresAt globalState
                       emit set_globalState set_tokenExpiresAt set_accessToken
                       js_mul toNumber num_mul num_add of_number].
    rewrite memento_get_update_eq.
    rewrite memento_get_update_ne, memento_get_update_eq by discriminate.
    auto.
  - intros body tokens Hparse Hnull Hexp.
    eexists. split.
    { exact (completeAuthentication_resolved now body tokens code codeVerifier
               clientId w Hparse Hnull). }
    rewrite Hexp. cbn [trace accessToken tokenExpiresAt globalState
                       emit set_globalState set_tokenExpiresAt set_accessToken
                       js_mul toNumber num_mul num_add of_number].
    rewrite memento_get_update_eq.
    rewrite memento_get_update_ne, memento_get_update_eq by discriminate.
    rewrite <- !app_assoc. auto.
  - intros net e Hfail. eexists. split.
    { apply completeAuthentication_rejected, exchange_fails_thrown, Hfail. }
    split.
    + cbn. rewrite <- app_assoc. reflexivity.
    + repeat split.
Qed.


Lemma getClientId_run w : getClientId w = (Returned (client_id w), w).
Proof.
  unfold getClientId, client_id. unfold_monad.
  destruct (truthy (clientIdSetting w)); reflexivity.
Qed.

(** A redirect that carries a code and finds a verifier goes on to the
    completion; what follows depends on how the completion ends. *)
Lemma handleAuthCallback_attempt now net uri w code :
  searchParams_get "code" (query uri) = JStr code ->
  code <> "" ->
  truthy (pending_verifier w) = true ->
  handleAuthCallback now net uri w =
    match completeAuthentication now net code (pending_verifier w) (client_id w) w with
    | (Returned _, w1) =>
        (Returned tt,
         set_globalState
           (memento_update (globalState w1) "pendingCodeVerifier" JUndefined)
           (set_pendingCodeVerifier JNull w1))
    | (Thrown e, w1) =>
        (Returned tt,
         emit (ShowErrorMessage
                 ("Failed to handle authentication callback: " +:+ message e)) w1)
    | (Pending, w1) => (Pending, w1)
    end.
Proof.
  intros Hcode Hne Hpending.
  unfold handleAuthCallback, try_catch. rewrite Hcode.
  assert (Htruthy : truthy (JStr code) = true).
  { cbn. apply negb_true_iff, String.eqb_neq. exact Hne. }
  rewrite Htruthy. unfold_monad. cbn [negb toString].
  fold (pending_verifier w). rewrite Hpending. cbn [negb].
  rewrite getClientId_run.
  destruct (completeAuthentication now net code (pending_verifier w) (client_id w) w)
    as [[[]|e|] w1]; reflexivity.
Qed.

(** A redirect that carries a code and finds no verifier is turned away
    with the "session expired" message; no exchange is attempted. *)
Lemma handleAuthCallback_no_pending now net uri w :
  truthy (searchParams_get "code" (query uri)) = true ->
  truthy (pending_verifier w) = false ->
  handleAuthCallback now net uri w = (Returned tt, emit session_expired w).
Proof.
  intros Hcode Hpending.
  unfold handleAuthCallback, try_catch. rewrite Hcode. unfold_monad. cbn [negb].
  fold (pending_verifier w). rewrite Hpending. reflexivity.
Qed.

(** C2 (amended). A redirect that carries a code and finds a pending
    verifier attempts the completion.  When the attempt succeeds, the
    verifier is cleared, the variable and the durable copy alike, and any
    later redirect with a code is turned away with the "session expired"
    message: it returns without throwing and without a second exchange.
    When the exchange fails, the callback also returns without throwing,
    after showing the two error messages, and the verifier stays where it
    was, in the variable and in the durable store. *)
Theorem handleAuthCallback_verifier now uri w code :
  searchParams_get "code" (query uri) = JStr code ->
  code <> "" ->
  truthy (pending_verifier w) = true ->
  (forall body tokens,
     JSON_parse body = Some tokens ->
     nullish tokens = false ->
     exists w1,
       handleAuthCallback now (Answered 200 body) uri w = (Returned tt, w1)
       /\ pendingCodeVerifier w1 = JNull
       /\ globalState w1 !! "pendingCodeVerifier" = None
       /\ forall now2 net2 uri2,
            truthy (searchParams_get "code" (query uri2)) = true ->
            handleAuthCallback now2 net2 uri2 w1
            = (Returned tt, emit session_expired w1))
  /\ (forall net e,
        exchange_fails net e ->
        exists w1,
          handleAuthCallback now net uri w = (Returned tt, w1)
          /\ pendingCodeVerifier w1 = pendingCodeVerifier w
          /\ globalState w1 = globalState w
          /\ trace w1
             = (trace w ++
                [token_request code (pending_verifier w) (client_id w);
                 ShowErrorMessage ("Authentication failed: " +:+ message e);
                 ShowErrorMessage
                   ("Failed to handle authentication callback: " +:+ message e)])%list).
Proof.
  intros Hcode Hne Hpending. split.
  - intros body tokens Hparse Hnull.
    eexists. split.
    { rewrite (handleAuthCallback_attempt _ _ _ _ _ Hcode Hne Hpending).
      rewrite (completeAuthentication_resolved now body tokens code _ _ w Hparse Hnull).
      reflexivity. }
    cbn [pendingCodeVerifier globalState set_globalState set_pendingCodeVerifier
         memento_update].
    split; [reflexivity|]. split; [apply lookup_delete_eq|].
    intros now2 net2 uri2 Hcode2.
    apply handleAuthCallback_no_pending; [exact Hcode2|].
    unfold pending_verifier, memento_get.
    cbn [pendingCodeVerifier globalState set_globalState set_pendingCodeVerifier
         js_or truthy].
    rewrite lookup_delete_eq. reflexivity.
  - intros net e Hfail. eexists. split.
    { rewrite (handleAuthCallback_attempt _ _ _ _ _ Hcode Hne Hpending).
      rewrite (completeAuthentication_rejected now net code _ _ w e)
        by (apply exchange_fails_thrown, Hfail).
      reflexivity. }
    cbn [pendingCodeVerifier globalState trace emit].
    repeat split. rewrite <- !app_assoc. reflexivity.
Qed.

(** The manual channel of [authenticateSpotify] completes with the verifier
    it has just generated and stored, and leaves the stored copy in place
    whatever the outcome. *)
Lemma authenticateSpotify_keeps_verifier values input now net w :
  input <> "" ->
  match authenticateSpotify values (Some "Open Spotify Login") (Some input) now net w with
  | (_, w1) =>
      pendingCodeVerifier w1 = JStr (generateRandomString 128 values)
      /\ memento_get (globalState w1) "pendingCodeVerifier"
         = JStr (generateRandomString 128 values)
  end.
Proof.
  intros Hinput. unfold authenticateSpotify. unfold_monad.
  rewrite getClientId_run.
  rewrite bool_decide_eq_true_2 by reflexivity.
  apply String.eqb_neq in Hinput. rewrite Hinput. cbn [negb].
  match goal with
  | |- context [completeAuthentication ?n ?t ?c ?v ?i ?w0] =>
      set (w0' := w0);
      assert (Hstored : pendingCodeVerifier w0' = JStr (generateRandomString 128 values)
                        /\ memento_get (globalState w0') "pendingCodeVerifier"
                           = JStr (generateRandomString 128 values))
        by (split;
            [reflexivity
            | exact (memento_get_update_eq (globalState w) "pendingCodeVerifier"
                       (JStr (generateRandomString 128 values)))]);
      assert (Hrun : match completeAuthentication n t c v i w0' with
                     | (_, w1) =>
                         pendingCodeVerifier w1 = pendingCodeVerifier w0'
                         /\ memento_get (globalState w1) "pendingCodeVerifier"
                            = memento_get (globalState w0') "pendingCodeVerifier"
                     end)
  end.
  { unfold completeAuthentication, try_catch, mbind, M_bind.
    rewrite exchangeCodeForToken_run.
    destruct net as [statusCode data|e|]; cbn [fst snd]; try (split; reflexivity).
    destruct (Z.eqb statusCode 200); [|split; reflexivity].
    destruct (JSON_parse data) as [tokens|]; [|split; reflexivity].
    destruct (nullish tokens) eqn:Hnull.
    - unfold get. rewrite Hnull. split; reflexivity.
    - rewrite get_nonnullish by exact Hnull. unfold modify at 1.
      rewrite get_nonnullish by exact Hnull.
      unfold_monad.
      cbn [pendingCodeVerifier globalState set_globalState set_tokenExpiresAt
           set_accessToken emit].
      split; [reflexivity|].
      rewrite !memento_get_update_ne by discriminate. reflexivity. }
  destruct (completeAuthentication _ _ _ _ _ w0') as [c w1].
  destruct Hrun as [-> ->]. exact Hstored.
Qed.

(** ** The command relay *)

(** C9. For each of the three commands and however [exec] ends,
    [sendSpotifyCommand] returns [undefined] and changes nothing but the
    trace: the access token, the expiry, the pending verifier, the durable
    store and the polling state are what they were.  A failure only adds a
    line to the console, and a message to the user when [exec] itself
    throws. *)
Theorem sendSpotifyCommand_frame outcome command w :
  exists w',
    sendSpotifyCommand outcome command w = (Returned tt, w')
    /\ only_trace w w'
    /\ trace w'
       = (trace w ++
          Exec (command_line command) ::
          match outcome with
          | ExecThrows e =>
              [ConsoleError ("Error sending Spotify command: " +:+ exn_toString e);
               ShowErrorMessage "Failed to control Spotify. Make sure Spotify is running."]
          | ExecCallback (Some e) =>
              [ConsoleError ("Error sending command: " +:+ exn_toString e)]
          | ExecCallback None => []
          end)%list.
Proof.
  destruct outcome as [e|[e|]];
    (eexists; split; [reflexivity|]);
    cbn; rewrite <- ?app_assoc;
    (split; [repeat split | reflexivity]).
Qed.


(** * Further properties *)

(** ** The verifier and the challenge as text *)

Lemma length_append_char (s : string) (c : ascii) :
  String.length (s +:+ String c "") = S (String.length s).
Proof.
  induction s as [|x s IH]; [reflexivity|].
  change (S (String.length (s +:+ String c "")) = S (S (String.length s))).
  rewrite IH. reflexivity.
Qed.

Lemma string_forallb_append_char p (s : string) (c : ascii) :
  string_forallb p (s +:+ String c "") = string_forallb p s && p c.
Proof.
  induction s as [|x s IH].
  - change (p c && true = true && p c). destruct (p c); reflexivity.
  - change (p x && string_forallb p (s +:+ String c "")
            = p x && string_forallb p s && p c).
    rewrite IH, andb_assoc. reflexivity.
Qed.

(** An index below the length of the alphabet selects one of its
    characters. *)
Lemma char_at_possible (i : Z) :
  0 <= i < 62 -> char_in possible (char_at possible i) = true.
Proof.
  apply (forallb_below (fun i => char_in possible (char_at possible i)) 62).
  vm_compute. reflexivity.
Qed.

Lemma char_at_base64url (i : Z) :
  0 <= i < 64 -> char_in base64url_alphabet (char_at base64url_alphabet i) = true.
Proof.
  apply (forallb_below
           (fun i => char_in base64url_alphabet (char_at base64url_alphabet i)) 64).
  vm_compute. reflexivity.
Qed.

(** Both alphabets lie within the characters [encodeURIComponent] keeps. *)
Lemma alphabets_unreserved (c : ascii) :
  char_in possible c || char_in base64url_alphabet c = true ->
  char_in unreserved c = true.
Proof.
  destruct c as [[] [] [] [] [] [] [] []]; vm_compute; intros H;
    first [reflexivity | discriminate H].
Qed.

Lemma string_forallb_impl (p q : ascii -> bool) (s : string) :
  (forall c, p c = true -> q c = true) ->
  string_forallb p s = true -> string_forallb q s = true.
Proof.
  intros Hpq. induction s as [|c s IH]; cbn; [reflexivity|].
  intros H. apply andb_true_iff in H as [Hc Hs].
  rewrite (Hpq c Hc), (IH Hs). reflexivity.
Qed.

(** [encodeURIComponent] changes nothing in a string of unreserved
    characters. *)
Lemma encodeURIComponent_unreserved (s : string) :
  string_forallb (char_in unreserved) s = true -> encodeURIComponent s = s.
Proof.
  induction s as [|c s IH]; [reflexivity|].
  cbn [string_forallb encodeURIComponent]. intros H.
  apply andb_true_iff in H as [Hc Hs]. unfold char_in in Hc.
  rewrite Hc, (IH Hs). reflexivity.
Qed.

Lemma generateRandomString_fold (l : list Z) (acc : string) :
  let step := fun acc x =>
    acc +:+ String (char_at possible (x mod Z.of_nat (String.length possible))) "" in
  String.length (fold_left step l acc) = (String.length acc + length l)%nat
  /\ (string_forallb (char_in possible) acc = true ->
      string_forallb (char_in possible) (fold_left step l acc) = true).
Proof.
  intros step. revert acc. induction l as [|x l IH]; intros acc; cbn [fold_left length].
  - split; [lia | auto].
  - destruct (IH (step acc x)) as [Hlen Hall]. split.
    + rewrite Hlen. unfold step. rewrite length_append_char. lia.
    + intros Hacc. apply Hall. unfold step.
      rewrite string_forallb_append_char, Hacc, char_at_possible; [reflexivity|].
      apply Z.mod_pos_bound. reflexivity.
Qed.

(** X1. Given at least [length] random bytes, whatever their values, the
    verifier has exactly [length] characters, all of them letters and digits
    of [possible]; it therefore passes through [encodeURIComponent]
    unchanged. *)
Theorem generateRandomString_verifier (n : nat) (values : list Z) :
  (n <= length values)%nat ->
  String.length (generateRandomString n values) = n
  /\ string_forallb (char_in possible) (generateRandomString n values) = true
  /\ encodeURIComponent (generateRandomString n values)
     = generateRandomString n values.
Proof.
  intros Hn. unfold generateRandomString.
  destruct (generateRandomString_fold (firstn n values) "") as [Hlen Hall].
  cbv zeta in Hlen, Hall.
  assert (Hchars := Hall eq_refl).
  split; [|split].
  - rewrite Hlen, length_firstn. cbn. lia.
  - exact Hchars.
  - apply encodeURIComponent_unreserved.
    apply (string_forallb_impl (char_in possible)); [|exact Hchars].
    intros c Hc. apply alphabets_unreserved. rewrite Hc. reflexivity.
Qed.

(** The digest has 32 bytes. *)
Lemma sha256_compress_length (h block : list Z) :
  length h = 8%nat -> length (SHA256.compress h block) = 8%nat.
Proof.
  intros Hh. unfold SHA256.compress.
  rewrite length_map, length_combine, Hh. reflexivity.
Qed.

Lemma sha256_digest_length (s : string) : length (sha256_digest s) = 32%nat.
Proof.
  unfold sha256_digest, SHA256.digest.
  set (bs := SHA256.blocks _ _).
  assert (Hh : forall h, length h = 8%nat ->
                         length (fold_left SHA256.compress bs h) = 8%nat).
  { induction bs as [|b bs IH]; intros h Hh; cbn [fold_left]; [exact Hh|].
    apply IH, sha256_compress_length, Hh. }
  specialize (Hh SHA256.H0 ltac:(vm_compute; reflexivity)).
  revert Hh. generalize (fold_left SHA256.compress bs SHA256.H0).
  intros h Hh.
  assert (Hc : forall l : list Z,
             length (concat (map (SHA256.be_bytes 4) l)) = (4 * length l)%nat).
  { induction l as [|x l IH]; [reflexivity|].
    cbn [map concat]. rewrite length_app, IH. cbn. lia. }
  rewrite Hc, Hh. reflexivity.
Qed.

Lemma base64url_nopad_ref_shape (buffer : list Z) :
  String.length (base64url_nopad_ref buffer) = ((4 * length buffer + 2) / 3)%nat
  /\ string_forallb (char_in base64url_alphabet) (base64url_nopad_ref buffer) = true.
Proof.
  induction buffer as [|a|a b|a b c rest [IHlen IHall]] using list_ind3;
    cbn [base64url_nopad_ref string_forallb String.length length];
    unfold sextet0, sextet1, sextet2, sextet3;
    rewrite ?char_at_base64url by apply land_63_range;
    try (split; reflexivity).
  split.
  - rewrite IHlen.
    replace (4 * S (S (S (length rest))) + 2)%nat
      with (4 * 3 + (4 * length rest + 2))%nat by lia.
    rewrite (Nat.div_add_l 4 3) by discriminate. reflexivity.
  - exact IHall.
Qed.

(** X2. For every verifier the challenge has 43 characters, all of the
    URL-safe base64 alphabet, and [encodeURIComponent] leaves it unchanged:
    putting it into the authorization URL as it is loses nothing. *)
Theorem generateCodeChallenge_shape (codeVerifier : string) :
  String.length (generateCodeChallenge codeVerifier) = 43%nat
  /\ string_forallb (char_in base64url_alphabet)
       (generateCodeChallenge codeVerifier) = true
  /\ encodeURIComponent (generateCodeChallenge codeVerifier)
     = generateCodeChallenge codeVerifier.
Proof.
  unfold generateCodeChallenge. rewrite base64URLEncode_ref.
  destruct (base64url_nopad_ref_shape (sha256_digest codeVerifier)) as [Hlen Hall].
  split; [|split].
  - rewrite Hlen, sha256_digest_length. reflexivity.
  - exact Hall.
  - apply encodeURIComponent_unreserved.
    apply (string_forallb_impl (char_in base64url_alphabet)); [|exact Hall].
    intros c Hc. apply alphabets_unreserved. rewrite Hc. apply orb_true_r.
Qed.


(** ** The authenticator, case by case *)

Lemma get_nullish v k w :
  nullish v = true -> get v k w = (Thrown (TypeError (cannot_read v k)), w).
Proof. unfold get. intros ->. reflexivity. Qed.

(** Every way a completion can end. *)
Lemma completeAuthentication_run now net code codeVerifier clientId w :
  completeAuthentication now net code codeVerifier clientId w =
    let sent := emit (token_request code codeVerifier clientId) w in
    match fst (exchangeCodeForToken net code codeVerifier clientId w) with
    | Returned tokens =>
        if nullish tokens then
          (Thrown (TypeError (cannot_read tokens (Name "access_token"))),
           emit (ShowErrorMessage
                   ("Authentication failed: " +:+
                    cannot_read tokens (Name "access_token"))) sent)
        else (Returned tt, installed now tokens sent)
    | Thrown e =>
        (Thrown e,
         emit (ShowErrorMessage ("Authentication failed: " +:+ message e)) sent)
    | Pending => (Pending, sent)
    end.
Proof.
  cbv zeta.
  destruct (fst (exchangeCodeForToken net code codeVerifier clientId w))
    as [tokens|e|] eqn:Hx.
  - rewrite exchangeCodeForToken_run in Hx. cbn [fst] in Hx.
    unfold completeAuthentication, try_catch, mbind, M_bind.
    rewrite exchangeCodeForToken_run, Hx.
    destruct (nullish tokens) eqn:Hnull.
    + rewrite get_nullish by exact Hnull. reflexivity.
    + rewrite get_nonnullish by exact Hnull. unfold modify at 1.
      rewrite get_nonnullish by exact Hnull. reflexivity.
  - apply completeAuthentication_rejected, Hx.
  - rewrite exchangeCodeForToken_run in Hx. cbn [fst] in Hx.
    unfold completeAuthentication, try_catch, mbind, M_bind.
    rewrite exchangeCodeForToken_run, Hx. reflexivity.
Qed.

Lemma installed_in_sync now tokens w : in_sync (installed now tokens w).
Proof.
  unfold in_sync, installed.
  cbn [accessToken tokenExpiresAt globalState emit set_globalState
       set_tokenExpiresAt set_accessToken].
  rewrite memento_get_update_eq.
  rewrite memento_get_update_ne, memento_get_update_eq by discriminate.
  split; reflexivity.
Qed.

Lemma only_trace_refl w : only_trace w w.
Proof. repeat split. Qed.

Lemma only_trace_emit e w w' : only_trace w w' -> only_trace w (emit e w').
Proof. intros H. exact H. Qed.

Lemma only_trace_in_sync w w' : only_trace w w' -> in_sync w -> in_sync w'.
Proof.
  unfold only_trace, in_sync.
  intros (_ & _ & Ha & Ht & _ & _ & Hg & _) [H1 H2].
  rewrite Ha, Ht, Hg. split; assumption.
Qed.

Lemma completeAuthentication_all_or_nothing_aux now net code codeVerifier clientId w :
  match completeAuthentication now net code codeVerifier clientId w with
  | (Returned _, w') =>
      in_sync w'
      /\ pendingCodeVerifier w' = pendingCodeVerifier w
      /\ memento_get (globalState w') "pendingCodeVerifier"
         = memento_get (globalState w) "pendingCodeVerifier"
  | (_, w') => only_trace w w'
  end.
Proof.
  rewrite completeAuthentication_run. cbv zeta.
  destruct (fst (exchangeCodeForToken net code codeVerifier clientId w))
    as [tokens|e|]; [destruct (nullish tokens)| |];
    try (repeat apply only_trace_emit; apply only_trace_refl).
  split; [apply installed_in_sync|]. split; [reflexivity|].
  unfold installed.
  cbn [globalState emit set_globalState set_tokenExpiresAt set_accessToken].
  rewrite !memento_get_update_ne by discriminate. reflexivity.
Qed.

(** X3. A completion is all or nothing.  When it returns, the variables
    and the durable store hold the same new token and expiry, and the
    pending verifier is untouched; when it throws or never settles, nothing
    but the trace has changed: no half-written credential exists. *)
Theorem completeAuthentication_all_or_nothing now net code codeVerifier clientId w :
  match completeAuthentication now net code codeVerifier clientId w with
  | (Returned _, w') =>
      in_sync w'
      /\ pendingCodeVerifier w' = pendingCodeVerifier w
      /\ memento_get (globalState w') "pendingCodeVerifier"
         = memento_get (globalState w) "pendingCodeVerifier"
  | (_, w') => only_trace w w'
  end.
Proof.
  rewrite completeAuthentication_run. cbv zeta.
  destruct (fst (exchangeCodeForToken net code codeVerifier clientId w))
    as [tokens|e|]; [destruct (nullish tokens)| |];
    try (repeat apply only_trace_emit; apply only_trace_refl).
  split; [apply installed_in_sync|]. split; [reflexivity|].
  unfold installed.
  cbn [globalState emit set_globalState set_tokenExpiresAt set_accessToken].
  rewrite !memento_get_update_ne by discriminate. reflexivity.
Qed.

(** X4. Two bodies that a 200 can carry without a token in them.  A body
    that parses to [null] makes the completion throw the engine's
    [TypeError], which is shown to the user; a body that does not parse
    leaves the completion pending for ever, with nothing shown.  Either way
    only the trace has changed. *)
Theorem completeAuthentication_empty_bodies now code codeVerifier clientId w body :
  (JSON_parse body = Some JNull ->
   completeAuthentication now (Answered 200 body) code codeVerifier clientId w
   = (Thrown (TypeError "Cannot read properties of null (reading 'access_token')"),
      emit (ShowErrorMessage
              "Authentication failed: Cannot read properties of null (reading 'access_token')")
        (emit (token_request code codeVerifier clientId) w)))
  /\ (JSON_parse body = None ->
      completeAuthentication now (Answered 200 body) code codeVerifier clientId w
      = (Pending, emit (token_request code codeVerifier clientId) w)).
Proof.
  split; intros Hparse; rewrite completeAuthentication_run;
    rewrite exchangeCodeForToken_run; cbn [fst Z.eqb Pos.eqb];
    rewrite Hparse; reflexivity.
Qed.


(** Every way a redirect can end. *)
Lemma handleAuthCallback_run now net uri w :
  handleAuthCallback now net uri w =
    let code := searchParams_get "code" (query uri) in
    if negb (truthy code) then
      (Returned tt, emit (ShowErrorMessage "No authorization code found in callback") w)
    else if negb (truthy (pending_verifier w)) then
      (Returned tt, emit session_expired w)
    else
      match completeAuthentication now net (toString code)
              (pending_verifier w) (client_id w) w with
      | (Returned _, w1) =>
          (Returned tt,
           set_globalState
             (memento_update (globalState w1) "pendingCodeVerifier" JUndefined)
             (set_pendingCodeVerifier JNull w1))
      | (Thrown e, w1) =>
          (Returned tt,
           emit (ShowErrorMessage
                   ("Failed to handle authentication callback: " +:+ message e)) w1)
      | (Pending, w1) => (Pending, w1)
      end.
Proof.
  cbv zeta. unfold handleAuthCallback, try_catch.
  destruct (truthy (searchParams_get "code" (query uri))); cbn [negb];
    [|reflexivity].
  unfold_monad. fold (pending_verifier w).
  destruct (truthy (pending_verifier w)); cbn [negb]; [|reflexivity].
  rewrite getClientId_run.
  destruct (completeAuthentication now net _ (pending_verifier w) (client_id w) w)
    as [[[]|e|] w1]; reflexivity.
Qed.

(** X5. A redirect whose query has no [code], or an empty one, is answered
    with "No authorization code found in callback" and nothing else
    happens: no exchange is attempted and a pending verifier stays
    pending. *)
Theorem handleAuthCallback_no_code now net uri w :
  truthy (searchParams_get "code" (query uri)) = false ->
  handleAuthCallback now net uri w
  = (Returned tt, emit (ShowErrorMessage "No authorization code found in callback") w).
Proof.
  intros Hcode. rewrite handleAuthCallback_run. cbv zeta.
  rewrite Hcode. reflexivity.
Qed.

(** X6. A redirect never throws: whatever the query, the state and the
    network, [handleAuthCallback] returns, except that it stays pending
    when the token endpoint stays silent or answers 200 with a body that
    does not parse. *)
Theorem handleAuthCallback_never_throws now net uri w :
  match fst (handleAuthCallback now net uri w) with
  | Returned _ => True
  | Thrown _ => False
  | Pending =>
      net = Silent \/ exists body, net = Answered 200 body /\ JSON_parse body = None
  end.
Proof.
  rewrite handleAuthCallback_run. cbv zeta.
  destruct (negb (truthy (searchParams_get "code" (query uri)))); [exact I|].
  destruct (negb (truthy (pending_verifier w))); [exact I|].
  rewrite completeAuthentication_run, exchangeCodeForToken_run. cbv zeta.
  cbn [fst].
  destruct net as [statusCode body|e|]; cbn [fst]; [| exact I | left; reflexivity].
  destruct (Z.eqb_spec statusCode 200) as [->|]; [|exact I].
  destruct (JSON_parse body) as [tokens|] eqn:Hparse.
  - destruct (nullish tokens); exact I.
  - right. exists body. split; [reflexivity | exact Hparse].
Qed.


(** What every completion does: it sends the token request first, and it
    touches nothing outside the credential. *)
Lemma completeAuthentication_frame now net code codeVerifier clientId w :
  outside_credential w
    (snd (completeAuthentication now net code codeVerifier clientId w))
  /\ exists rest,
       trace (snd (completeAuthentication now net code codeVerifier clientId w))
       = (trace w ++ token_request code codeVerifier clientId :: rest)%list.
Proof.
  rewrite completeAuthentication_run. cbv zeta.
  destruct (fst (exchangeCodeForToken net code codeVerifier clientId w))
    as [tokens|e|]; [destruct (nullish tokens)| |]; cbn [snd]; unfold installed;
    cbn [trace emit set_globalState set_tokenExpiresAt set_accessToken];
    (split;
     [ unfold outside_credential;
       cbn [spotifyPanel updateInterval lastTrackId pendingCodeVerifier
            globalState clientIdSetting emit set_globalState
            set_tokenExpiresAt set_accessToken];
       rewrite ?memento_get_update_ne by discriminate; repeat split
     | rewrite <- ?app_assoc; eexists; reflexivity ]).
Qed.

(** Every way [authenticateSpotify] can go. *)
Lemma authenticateSpotify_run values choice manualInput now net w :
  authenticateSpotify values choice manualInput now net w =
    let v := generateRandomString 128 values in
    let stored :=
      emit login_prompt
        (set_globalState
           (memento_update (globalState w) "pendingCodeVerifier" (JStr v))
           (set_pendingCodeVerifier (JStr v) w)) in
    if bool_decide (choice = Some "Open Spotify Login") then
      let asked :=
        emit ShowInputBox
          (emit (OpenExternal (authUrl (client_id w) (generateCodeChallenge v)))
             stored) in
      match manualInput with
      | Some input =>
          if negb (String.eqb input "") then
            completeAuthentication now net (trim input) (JStr v) (client_id w) asked
          else (Returned tt, asked)
      | None => (Returned tt, asked)
      end
    else (Returned tt, stored).
Proof.
  cbv zeta. unfold authenticateSpotify. unfold_monad.
  rewrite getClientId_run.
  destruct (bool_decide (choice = Some "Open Spotify Login")); [|reflexivity].
  destruct manualInput as [input|]; [|reflexivity].
  destruct (negb (String.eqb input "")); reflexivity.
Qed.

Lemma authenticateSpotify_stores_verifier_aux values choice manualInput now net w :
  pendingCodeVerifier (snd (authenticateSpotify values choice manualInput now net w))
  = JStr (generateRandomString 128 values)
  /\ memento_get
       (globalState (snd (authenticateSpotify values choice manualInput now net w)))
       "pendingCodeVerifier"
     = JStr (generateRandomString 128 values).
Proof.
  rewrite authenticateSpotify_run. cbv zeta.
  set (v := generateRandomString 128 values).
  assert (Hstored : forall w0,
            pendingCodeVerifier w0 = JStr v ->
            memento_get (globalState w0) "pendingCodeVerifier" = JStr v ->
            forall code cid,
              pendingCodeVerifier
                (snd (completeAuthentication now net code (JStr v) cid w0)) = JStr v
              /\ memento_get
                   (globalState
                      (snd (completeAuthentication now net code (JStr v) cid w0)))
                   "pendingCodeVerifier" = JStr v).
  { intros w0 H1 H2 code cid.
    destruct (completeAuthentication_frame now net code (JStr v) cid w0)
      as [(_ & _ & _ & Hp & Hg & _) _].
    rewrite Hp, Hg. split; assumption. }
  assert (Hg : memento_get (memento_update (globalState w) "pendingCodeVerifier" (JStr v))
                 "pendingCodeVerifier" = JStr v)
    by apply memento_get_update_eq.
  destruct (bool_decide (choice = Some "Open Spotify Login"));
    [|split; [reflexivity | exact Hg]].
  destruct manualInput as [input|]; [|split; [reflexivity | exact Hg]].
  destruct (negb (String.eqb input "")); [|split; [reflexivity | exact Hg]].
  apply Hstored; [reflexivity | exact Hg].
Qed.

(** X7. Whatever the user chooses in the dialogs and however a pasted code
    fares at the provider, [authenticateSpotify] ends with the verifier it
    generated stored in the variable and in the durable store: the manual
    channel never consumes it. *)
Theorem authenticateSpotify_stores_verifier values choice manualInput now net w :
  pendingCodeVerifier (snd (authenticateSpotify values choice manualInput now net w))
  = JStr (generateRandomString 128 values)
  /\ memento_get
       (globalState (snd (authenticateSpotify values choice manualInput now net w)))
       "pendingCodeVerifier"
     = JStr (generateRandomString 128 values).
Proof.
  rewrite authenticateSpotify_run. cbv zeta.
  set (v := generateRandomString 128 values).
  assert (Hstored : forall w0,
            pendingCodeVerifier w0 = JStr v ->
            memento_get (globalState w0) "pendingCodeVerifier" = JStr v ->
            forall code cid,
              pendingCodeVerifier
                (snd (completeAuthentication now net code (JStr v) cid w0)) = JStr v
              /\ memento_get
                   (globalState
                      (snd (completeAuthentication now net code (JStr v) cid w0)))
                   "pendingCodeVerifier" = JStr v).
  { intros w0 H1 H2 code cid.
    destruct (completeAuthentication_frame now net code (JStr v) cid w0)
      as [(_ & _ & _ & Hp & Hg & _) _].
    rewrite Hp, Hg. split; assumption. }
  assert (Hg : memento_get (memento_update (globalState w) "pendingCodeVerifier" (JStr v))
                 "pendingCodeVerifier" = JStr v)
    by apply memento_get_update_eq.
  destruct (bool_decide (choice = Some "Open Spotify Login"));
    [|split; [reflexivity | exact Hg]].
  destruct manualInput as [input|]; [|split; [reflexivity | exact Hg]].
  destruct (negb (String.eqb input "")); [|split; [reflexivity | exact Hg]].
  apply Hstored; [reflexivity | exact Hg].
Qed.

(** X8. The verifier sent with a pasted code is the one whose challenge was
    put into the authorization URL just before: given the 128 random bytes
    of the verifier [v], the trace of such a run is the prompt, the opening
    of the URL with [generateCodeChallenge v], the input box, and the token
    request with the trimmed code and [v]. *)
Theorem authenticateSpotify_binds_challenge values input now net w :
  (128 <= length values)%nat ->
  input <> "" ->
  exists rest,
    trace (snd (authenticateSpotify values (Some "Open Spotify Login") (Some input)
                  now net w))
    = (trace w ++
       [login_prompt;
        OpenExternal (authUrl (client_id w)
                        (generateCodeChallenge (generateRandomString 128 values)));
        ShowInputBox;
        token_request (trim input) (JStr (generateRandomString 128 values))
          (client_id w)] ++ rest)%list.
Proof.
  intros _ Hinput. rewrite authenticateSpotify_run. cbv zeta.
  rewrite bool_decide_eq_true_2 by reflexivity.
  apply String.eqb_neq in Hinput. rewrite Hinput. cbn [negb].
  match goal with
  | |- context [completeAuthentication ?n ?t ?c ?v ?i ?w0] =>
      destruct (completeAuthentication_frame n t c v i w0) as [_ [rest Hrest]]
  end.
  exists rest. rewrite Hrest. cbn [trace emit set_globalState set_pendingCodeVerifier].
  rewrite <- !app_assoc. reflexivity.
Qed.

(** X9. Without a pasted code no exchange happens: when the user does not
    choose "Open Spotify Login", or dismisses the input box or leaves it
    empty, [authenticateSpotify] returns, sends nothing to the provider and
    leaves the access token, the expiry and their durable copies as they
    were. *)
Theorem authenticateSpotify_without_code values choice manualInput now net w :
  choice <> Some "Open Spotify Login" \/ manualInput = None \/ manualInput = Some "" ->
  exists w',
    authenticateSpotify values choice manualInput now net w = (Returned tt, w')
    /\ accessToken w' = accessToken w
    /\ tokenExpiresAt w' = tokenExpiresAt w
    /\ memento_get (globalState w') "spotifyAccessToken"
       = memento_get (globalState w) "spotifyAccessToken"
    /\ memento_get (globalState w') "spotifyTokenExpiresAt"
       = memento_get (globalState w) "spotifyTokenExpiresAt"
    /\ forall hostname path form, ~ In (HttpsPost hostname path form)
                                       (skipn (length (trace w)) (trace w')).
Proof.
  intros Hno. rewrite authenticateSpotify_run. cbv zeta.
  assert (Hskip : forall (l extra : list event),
             skipn (length l) (l ++ extra) = extra).
  { intros l extra. induction l as [|x l IH]; [reflexivity | exact IH]. }
  destruct (bool_decide (choice = Some "Open Spotify Login")) eqn:Hchoice.
  - apply bool_decide_eq_true_1 in Hchoice.
    destruct Hno as [H|[-> | ->]]; [contradiction | |];
      (eexists; split; [reflexivity|]);
      cbn [accessToken tokenExpiresAt globalState trace emit set_globalState
           set_pendingCodeVerifier];
      rewrite !memento_get_update_ne by discriminate;
      repeat (split; [reflexivity|]);
      intros hostname path form;
      rewrite <- !app_assoc, Hskip; cbn; intros [H|[H|[H|[]]]]; discriminate H.
  - eexists. split; [reflexivity|].
    cbn [accessToken tokenExpiresAt globalState trace emit set_globalState
         set_pendingCodeVerifier].
    rewrite !memento_get_update_ne by discriminate.
    repeat (split; [reflexivity|]).
    intros hostname path form.
    rewrite Hskip. cbn. intros [H|[]]; discriminate H.
Qed.


Lemma generateRandomString_nonempty (values : list Z) :
  values <> [] -> generateRandomString 128 values <> "".
Proof.
  intros Hne Hempty.
  destruct (generateRandomString_fold (firstn 128 values) "") as [Hlen _].
  cbv zeta in Hlen. unfold generateRandomString in Hempty.
  rewrite Hempty in Hlen. destruct values as [|x values]; [congruence|].
  cbn in Hlen. discriminate Hlen.
Qed.

Lemma authenticateSpotify_clientId values choice manualInput now net w :
  clientIdSetting (snd (authenticateSpotify values choice manualInput now net w))
  = clientIdSetting w.
Proof.
  rewrite authenticateSpotify_run. cbv zeta.
  destruct (bool_decide (choice = Some "Open Spotify Login")); [|reflexivity].
  destruct manualInput as [input|]; [|reflexivity].
  destruct (negb (String.eqb input "")); [|reflexivity].
  match goal with
  | |- context [completeAuthentication ?n ?t ?c ?v ?i ?w0] =>
      destruct (completeAuthentication_frame n t c v i w0)
        as [(_ & _ & _ & _ & _ & ->) _]
  end.
  reflexivity.
Qed.

(** A redirect with a code that finds the verifier [v] sends the token
    request with [v] before anything else. *)
Lemma handleAuthCallback_sends now net uri w code v :
  searchParams_get "code" (query uri) = JStr code ->
  code <> "" ->
  pending_verifier w = JStr v ->
  v <> "" ->
  exists rest,
    trace (snd (handleAuthCallback now net uri w))
    = (trace w ++ token_request code (JStr v) (client_id w) :: rest)%list.
Proof.
  intros Hcode Hne Hv Hvne.
  rewrite (handleAuthCallback_attempt now net uri w code Hcode Hne)
    by (rewrite Hv; cbn; apply negb_true_iff, String.eqb_neq, Hvne).
  rewrite Hv.
  destruct (completeAuthentication_frame now net code (JStr v) (client_id w) w)
    as [_ [rest Hrest]].
  destruct (completeAuthentication now net code (JStr v) (client_id w) w)
    as [[[]|e|] w1]; cbn [snd] in *;
    cbn [trace emit set_globalState set_pendingCodeVerifier];
    rewrite Hrest, <- ?app_assoc; eexists; reflexivity.
Qed.

(** X10. The verifier stored by [authenticateSpotify] serves a later
    redirect, in the same session and after a restart of the host: a
    redirect with a code sends the token request with that verifier.  This
    holds whatever happened in the dialogs, also after a pasted code has
    already been exchanged successfully: the redirect is then not turned
    away but sends its code too. *)
Theorem redirect_uses_stored_verifier
    values choice manualInput now0 net0 w now net uri code :
  values <> [] ->
  searchParams_get "code" (query uri) = JStr code ->
  code <> "" ->
  forall w1,
    w1 = snd (authenticateSpotify values choice manualInput now0 net0 w)
    \/ w1 = restart (snd (authenticateSpotify values choice manualInput now0 net0 w)) ->
    exists rest,
      trace (snd (handleAuthCallback now net uri w1))
      = (trace w1 ++
         token_request code (JStr (generateRandomString 128 values)) (client_id w)
         :: rest)%list.
Proof.
  intros Hvalues Hcode Hne w1 Hw1.
  destruct (authenticateSpotify_stores_verifier_aux values choice manualInput now0 net0 w)
    as [Hvar Hstore].
  assert (Hcid : client_id w1 = client_id w).
  { unfold client_id.
    assert (Hs : clientIdSetting w1 = clientIdSetting w)
      by (destruct Hw1 as [-> | ->]; cbn [restart clientIdSetting];
          apply authenticateSpotify_clientId).
    rewrite Hs. reflexivity. }
  rewrite <- Hcid.
  apply handleAuthCallback_sends; [exact Hcode | exact Hne | |].
  - unfold pending_verifier.
    destruct Hw1 as [-> | ->]; cbn [restart pendingCodeVerifier globalState].
    + rewrite Hvar. unfold js_or. cbn [truthy].
      apply generateRandomString_nonempty, String.eqb_neq in Hvalues.
      rewrite Hvalues. reflexivity.
    + rewrite Hstore. reflexivity.
  - apply generateRandomString_nonempty, Hvalues.
Qed.


(** ** The credential over time *)

(** The [try] block sends the request and then touches nothing but
    [lastTrackId]. *)
Lemma getCurrentTrack_try_frame net w :
  settles (getCurrentTrack_try net) w
    (fun _ w' => outside_poll w w' /\ trace w' = (trace w ++ [poll_request w])%list)
    (fun _ w' => outside_poll w w' /\ trace w' = (trace w ++ [poll_request w])%list).
Proof.
  unfold getCurrentTrack_try.
  apply settles_bind.
  unfold settles at 1. rewrite spotifyApiRequest_run.
  assert (Hdone : forall w', w' = emit (poll_request w) w
                             \/ (exists id, w' = set_lastTrackId id (emit (poll_request w) w)) ->
                             outside_poll w w'
                             /\ trace w' = (trace w ++ [poll_request w])%list).
  { intros w' [-> | [id ->]]; (split; [repeat split | reflexivity]). }
  change "/v1/me/player/currently-playing" with currently_playing.
  fold (poll_request w).
  destruct net as [statusCode data|e|]; try (apply Hdone; left; reflexivity).
  destruct (Z.eqb statusCode 204).
  { repeat mstep; apply Hdone; eauto. }
  destruct (Z.eqb statusCode 200); [|apply Hdone; left; reflexivity].
  destruct (JSON_parse data) as [v|]; [|apply Hdone; left; reflexivity].
  repeat mstep; apply Hdone; eauto.
Qed.

(** X11. A poll changes nothing but [lastTrackId] and the trace.  With a
    token that a header can carry, a poll that passes the two guards sends
    exactly one request and shows at most one message; otherwise it leaves
    the world as it found it. *)
Theorem getCurrentTrack_frame now net w :
  header_safe (accessToken w) ->
  outside_poll w (snd (getCurrentTrack now net w))
  /\ if reaches_request now w then
       trace (snd (getCurrentTrack now net w)) = (trace w ++ [poll_request w])%list
       \/ exists msg,
            trace (snd (getCurrentTrack now net w))
            = (trace w ++ [poll_request w; ShowErrorMessage msg])%list
     else snd (getCurrentTrack now net w) = w.
Proof.
  intros _. destruct (reaches_request now w) eqn:Hr.
  - rewrite getCurrentTrack_polls by exact Hr. unfold try_catch.
    pose proof (getCurrentTrack_try_frame net w) as Hs. unfold settles in Hs.
    destruct (getCurrentTrack_try net w) as [[snap|e|] w'].
    + destruct Hs as [Hout Htrace]. split; [exact Hout | left; exact Htrace].
    + destruct Hs as [Hout Htrace]. rewrite getCurrentTrack_catch_run.
      cbn [snd]. split; [exact Hout|].
      right. eexists. cbn [trace emit]. rewrite Htrace, <- app_assoc. reflexivity.
    + contradiction.
  - assert (Hsame : snd (getCurrentTrack now net w) = w).
    { unfold reaches_request in Hr. unfold getCurrentTrack. unfold_monad.
      fold (expired now w).
      destruct (expired now w); [reflexivity|].
      cbn [negb andb] in Hr. rewrite Hr. reflexivity. }
    rewrite Hsame. split; [repeat split | reflexivity].
Qed.


Lemma getCurrentTrack_outside now net w :
  outside_poll w (snd (getCurrentTrack now net w)).
Proof.
  unfold getCurrentTrack. unfold_monad.
  destruct (truthy (tokenExpiresAt w) && js_ge now (tokenExpiresAt w));
    [repeat split|].
  destruct (negb (truthy (accessToken w))); [repeat split|].
  pose proof (getCurrentTrack_try_frame net w) as Hs. unfold settles in Hs.
  destruct (getCurrentTrack_try net w) as [[snap|e|] w'];
    [exact (proj1 Hs) | | contradiction].
  rewrite getCurrentTrack_catch_run. exact (proj1 Hs).
Qed.


(** ** The credential over time *)


(** ** The session keeps variables and store together *)

(** X13. The variables of the credential and their durable copies agree
    after [activate], and every operation of the extension keeps them in
    agreement: a completion, a redirect, an authentication, a poll and a
    command. *)
Theorem in_sync_invariant w :
  in_sync (snd (activate w))
  /\ (in_sync w ->
      (forall now net code codeVerifier clientId,
         in_sync (snd (completeAuthentication now net code codeVerifier clientId w)))
      /\ (forall now net uri, in_sync (snd (handleAuthCallback now net uri w)))
      /\ (forall values choice manualInput now net,
            in_sync (snd (authenticateSpotify values choice manualInput now net w)))
      /\ (forall now net, in_sync (snd (getCurrentTrack now net w)))
      /\ (forall outcome command, in_sync (snd (sendSpotifyCommand outcome command w)))).
Proof.
  assert (Hcomplete : forall w0 now net code codeVerifier clientId,
            in_sync w0 ->
            in_sync (snd (completeAuthentication now net code codeVerifier clientId w0))).
  { intros w0 now net code codeVerifier clientId Hw0.
    pose proof (completeAuthentication_all_or_nothing_aux now net code codeVerifier
                  clientId w0) as H.
    destruct (completeAuthentication now net code codeVerifier clientId w0)
      as [[[]|e|] w']; cbn [snd].
    - exact (proj1 H).
    - exact (only_trace_in_sync _ _ H Hw0).
    - exact (only_trace_in_sync _ _ H Hw0). }
  assert (Hkey : forall w0 v,
            in_sync w0 ->
            in_sync (set_globalState
                       (memento_update (globalState w0) "pendingCodeVerifier" v) w0)).
  { intros w0 v [H1 H2]. unfold in_sync.
    cbn [accessToken tokenExpiresAt globalState set_globalState].
    rewrite !memento_get_update_ne by discriminate. split; assumption. }
  split.
  - destruct (activate_run w) as (w' & Hrun & Ha & Ht & Hg).
    rewrite Hrun. cbn [snd]. unfold in_sync. rewrite Ha, Ht, Hg. split; reflexivity.
  - intros Hw. split; [|split; [|split; [|split]]].
    + intros. apply Hcomplete, Hw.
    + intros now net uri. rewrite handleAuthCallback_run. cbv zeta.
      destruct (negb (truthy (searchParams_get "code" (query uri)))); [exact Hw|].
      destruct (negb (truthy (pending_verifier w))); [exact Hw|].
      pose proof (Hcomplete w now net (toString (searchParams_get "code" (query uri)))
                    (pending_verifier w) (client_id w) Hw) as H.
      destruct (completeAuthentication now net _ (pending_verifier w) (client_id w) w)
        as [[[]|e|] w1]; cbn [snd] in *; [|exact H|exact H].
      apply (Hkey (set_pendingCodeVerifier JNull w1) JUndefined). exact H.
    + intros values choice manualInput now net.
      rewrite authenticateSpotify_run. cbv zeta.
      set (v := generateRandomString 128 values).
      assert (Hstored : in_sync
                (set_globalState
                   (memento_update (globalState w) "pendingCodeVerifier" (JStr v))
                   (set_pendingCodeVerifier (JStr v) w)))
        by (apply (Hkey (set_pendingCodeVerifier (JStr v) w) (JStr v)); exact Hw).
      destruct (bool_decide (choice = Some "Open Spotify Login")); [|exact Hstored].
      destruct manualInput as [input|]; [|exact Hstored].
      destruct (negb (String.eqb input "")); [|exact Hstored].
      apply Hcomplete. exact Hstored.
    + intros now net.
      destruct (getCurrentTrack_outside now net w) as (_ & _ & Ha & Ht & _ & Hg & _).
      destruct Hw as [H1 H2]. unfold in_sync. rewrite Ha, Ht, Hg.
      split; assumption.
    + intros outcome command.
      destruct outcome as [e|[e|]]; exact Hw.
Qed.


(** ** The last track seen *)

Lemma strict_eq_true a b : strict_eq a b = true -> a = b.
Proof.
  destruct a, b; cbn; try discriminate; intros H; try reflexivity.
  - apply Bool.eqb_prop in H. congruence.
  - apply Z.eqb_eq in H. congruence.
  - apply String.eqb_eq in H. congruence.
Qed.

Lemma getCurrentTrack_try_lastTrackId body data w :
  JSON_parse body = Some data ->
  truthy (field data "item") = true ->
  settles (getCurrentTrack_try (Answered 200 body)) w
    (fun _ w' => lastTrackId w' = field (field data "item") "id")
    (fun _ w' => lastTrackId w' = field (field data "item") "id").
Proof.
  intros Hparse Hitem.
  destruct (field_object data "item") as [dprops Hdata];
    [intros H; rewrite H in Hitem; discriminate | discriminate |].
  assert (Htd : negb (truthy data) = false) by (rewrite Hdata; reflexivity).
  assert (Hti : negb (truthy (own_property data (Name "item"))) = false)
    by (apply negb_false_iff; exact Hitem).
  assert (Hnd : nullish data = false) by (rewrite Hdata; reflexivity).
  clear Hdata.
  unfold getCurrentTrack_try, field.
  apply settles_bind. unfold settles at 1. rewrite spotifyApiRequest_run.
  cbn [Z.eqb Pos.eqb]. rewrite Hparse.
  rewrite Htd. apply settles_bind, settles_get; [intros _ | congruence].
  rewrite Hti. apply settles_bind, settles_get; [intros Hni | intros msg Hni].
  2:{ apply truthy_not_nullish in Hitem. unfold field in Hitem. congruence. }
  apply settles_bind, settles_read.
  apply settles_bind.
  destruct (negb (strict_eq _ _)) eqn:Hsame.
  - apply settles_modify. repeat mstep; reflexivity.
  - apply settles_ret.
    apply negb_false_iff, strict_eq_true in Hsame.
    repeat mstep; exact Hsame.
Qed.

(** X14. After a poll whose answer carries a track item, [lastTrackId] is
    the [id] of that item, also when the rest of the item has the wrong
    shape and the poll ends in "connecting". *)
Theorem getCurrentTrack_lastTrackId now w body data :
  reaches_request now w = true ->
  JSON_parse body = Some data ->
  truthy (field data "item") = true ->
  lastTrackId (snd (getCurrentTrack now (Answered 200 body) w))
  = field (field data "item") "id".
Proof.
  intros Hr Hparse Hitem.
  rewrite getCurrentTrack_polls by exact Hr. unfold try_catch.
  pose proof (getCurrentTrack_try_lastTrackId body data w Hparse Hitem) as Hs.
  unfold settles in Hs.
  destruct (getCurrentTrack_try (Answered 200 body) w) as [[snap|e|] w'];
    [exact Hs | | contradiction].
  rewrite getCurrentTrack_catch_run. exact Hs.
Qed.


(** ** Bodies of the wrong shape *)

Lemma settles_get_message v k w Q (E : exn -> World -> Prop) :
  (nullish v = false -> Q (own_property v k) w) ->
  (nullish v = true -> E (TypeError (cannot_read v k)) w) ->
  settles (get v k) w Q E.
Proof.
  unfold settles, get, cannot_read. destruct (nullish v); cbn; auto.
Qed.

(** The first [null] or [undefined] element is the one whose read throws. *)
Lemma mapM_get_message k l w :
  forallb (fun a => negb (nullish a)) l = false ->
  exists a, nullish a = true
            /\ fst (mapM (fun a => get a k) l w) = Thrown (TypeError (cannot_read a k)).
Proof.
  induction l as [|a l IH]; cbn [forallb mapM]; [discriminate|].
  unfold mbind, M_bind.
  destruct (nullish a) eqn:Ha; cbn [negb andb].
  - intros _. exists a. rewrite get_nullish by exact Ha. split; [exact Ha | reflexivity].
  - intros Hall. rewrite get_nonnullish by exact Ha.
    destruct (IH Hall) as (b & Hb & Hrun). exists b. split; [exact Hb|].
    destruct (mapM (fun a0 => get a0 k) l w) as [[names|e|] w'];
      cbn [fst] in *; congruence.
Qed.

Lemma settles_array_map_get_message expr v k w Q (E : exn -> World -> Prop) :
  (forall l, Q l w) ->
  (forall a, nullish a = true -> E (TypeError (cannot_read a k)) w) ->
  (nullish v = true -> E (TypeError (cannot_read v (Name "map"))) w) ->
  E (TypeError (expr +:+ ".map is not a function")) w ->
  settles (array_map expr v (fun a => get a k)) w Q E.
Proof.
  intros HQ Helem Hnull Hfun. unfold settles, array_map.
  destruct v as [| |b|n| |s|l|props]; try exact Hfun.
  - unfold_monad. exact (Hnull eq_refl).
  - unfold_monad. exact (Hnull eq_refl).
  - destruct (mapM_get k l w) as [H1 _]. rewrite H1.
    destruct (forallb _ l) eqn:Hall; [apply HQ|].
    destruct (mapM_get_message k l w Hall) as (a & Ha & ->).
    apply Helem, Ha.
Qed.

(** No message of a failed read of the mapping mentions 401. *)
Ltac no_401 :=
  match goal with
  | H : nullish ?v = true |- _ =>
      destruct v; try discriminate H; vm_compute; reflexivity
  end.

Lemma getCurrentTrack_try_shape body data w :
  JSON_parse body = Some data ->
  settles (getCurrentTrack_try (Answered 200 body)) w
    (fun snap _ => error snap = JUndefined \/ snap = degraded NoTrackPlaying)
    (fun e _ => includes "401" (message e) = false).
Proof.
  intros Hparse. unfold getCurrentTrack_try.
  apply settles_bind. unfold settles at 1. rewrite spotifyApiRequest_run.
  cbn [Z.eqb Pos.eqb]. rewrite Hparse.
  repeat (cbv beta;
          lazymatch goal with
          | |- settles (mbind _ _) _ _ _ => apply settles_bind
          | |- settles (mret _) _ _ _ => apply settles_ret
          | |- settles (get _ _) _ _ _ =>
              apply settles_get_message; [intros ? | intros ?; cbn [message]; no_401]
          | |- settles (get_optional _ _) _ _ _ => apply settles_get_optional
          | |- settles (read _) _ _ _ => apply settles_read
          | |- settles (modify _) _ _ _ => apply settles_modify
          | |- settles (array_map _ _ _) _ _ _ =>
              apply settles_array_map_get_message;
              [ intros ?
              | intros ? ?; cbn [message]; no_401
              | intros ?; cbn [message]; no_401
              | vm_compute; reflexivity ]
          | |- settles (if ?b then _ else _) _ _ _ => destruct b eqn:?
          end);
    first [left; reflexivity | right; reflexivity].
Qed.

(** X15. An answer 200 whose body parses is never reported as an
    authentication problem, whatever the shape of the body: the poll
    returns a mapped track, "no track playing", or, when a read of the
    mapping fails, "connecting". *)
Theorem getCurrentTrack_ok_never_unauthorized now w body data :
  reaches_request now w = true ->
  JSON_parse body = Some data ->
  exists snap w',
    getCurrentTrack now (Answered 200 body) w = (Returned snap, w')
    /\ (error snap = JUndefined
        \/ snap = degraded NoTrackPlaying
        \/ snap = degraded Connecting).
Proof.
  intros Hr Hparse.
  rewrite getCurrentTrack_polls by exact Hr. unfold try_catch.
  pose proof (getCurrentTrack_try_shape body data w Hparse) as Hs.
  unfold settles in Hs.
  destruct (getCurrentTrack_try (Answered 200 body) w) as [[snap|e|] w'].
  - exists snap, w'. split; [reflexivity | tauto].
  - rewrite getCurrentTrack_catch_run, Hs. eexists. eexists.
    split; [reflexivity | right; right; reflexivity].
  - contradiction.
Qed.


(** ** The panel and its timer *)

Lemma timer_ok_same h h' :
  timers h' = timers h ->
  updateInterval (world h') = updateInterval (world h) ->
  spotifyPanel (world h') = spotifyPanel (world h) ->
  timer_ok h -> timer_ok h'.
Proof. unfold timer_ok. intros -> -> ->. auto. Qed.

Lemma timer_ok_no_panel h :
  timer_ok h -> spotifyPanel (world h) = false -> timers h = [].
Proof.
  unfold timer_ok. destruct (timers h) as [|t [|t' l]]; [reflexivity | | tauto].
  intros [_ Hp] Hn. congruence.
Qed.

Lemma timer_ok_cleared h t :
  timer_ok h -> updateInterval (world h) = Some t ->
  filter (fun t' => negb (Z.eqb t' t)) (timers h) = [].
Proof.
  unfold timer_ok. destruct (timers h) as [|t0 [|t1 l]]; [reflexivity | | tauto].
  intros [Ht _] Hu. rewrite Ht in Hu. injection Hu as ->.
  cbn. rewrite Z.eqb_refl. reflexivity.
Qed.

Lemma timer_ok_no_handle h :
  timer_ok h -> updateInterval (world h) = None -> timers h = [].
Proof.
  unfold timer_ok. destruct (timers h) as [|t [|t' l]]; [reflexivity | | tauto].
  intros [Ht _] Hn. congruence.
Qed.

Lemma onDidDispose_stops h :
  timer_ok h ->
  timers (onDidDispose h) = []
  /\ spotifyPanel (world (onDidDispose h)) = false
  /\ updateInterval (world (onDidDispose h)) = None.
Proof.
  intros Hok. unfold onDidDispose.
  cbn [world set_world updateInterval set_spotifyPanel].
  destruct (updateInterval (world h)) as [t|] eqn:Hu.
  - cbn. rewrite (timer_ok_cleared h t Hok Hu). auto.
  - cbn. rewrite Hu, (timer_ok_no_handle h Hok Hu). auto.
Qed.

Lemma panel_disposed_ok h : timer_ok h -> timer_ok (panel_disposed h).
Proof.
  intros Hok. unfold panel_disposed.
  destruct (disposeRegistered h); [|exact Hok].
  destruct (onDidDispose_stops (set_disposeRegistered false h)) as [Ht _].
  { exact Hok. }
  unfold timer_ok. rewrite Ht. exact I.
Qed.

Lemma lift_poll_same now net h :
  timers (snd (lift (getCurrentTrack now net) h)) = timers h
  /\ updateInterval (world (snd (lift (getCurrentTrack now net) h)))
     = updateInterval (world h)
  /\ spotifyPanel (world (snd (lift (getCurrentTrack now net) h)))
     = spotifyPanel (world h)
  /\ disposeRegistered (snd (lift (getCurrentTrack now net) h)) = disposeRegistered h
  /\ asked (snd (lift (getCurrentTrack now net) h)) = asked h.
Proof.
  unfold lift.
  destruct (getCurrentTrack_outside now net (world h)) as (Hp & Hu & _).
  destruct (getCurrentTrack now net (world h)) as [c w']. cbn [snd] in *.
  cbn. auto.
Qed.

Lemma fetchAndPost_ok now net disposedMeanwhile h :
  timer_ok h -> timer_ok (snd (fetchAndPost now net disposedMeanwhile h)).
Proof.
  intros Hok. unfold fetchAndPost.
  destruct (lift_poll_same now net h) as (Ht & Hu & Hp & _).
  destruct (lift (getCurrentTrack now net) h) as [[snap|e|] h1]; cbn [snd] in *;
    try (apply (timer_ok_same h h1); assumption).
  assert (Hok1 : timer_ok h1) by (apply (timer_ok_same h h1); assumption).
  assert (Hok2 : timer_ok (if disposedMeanwhile then panel_disposed h1 else h1))
    by (destruct disposedMeanwhile; [apply panel_disposed_ok|]; exact Hok1).
  revert Hok2. generalize (if disposedMeanwhile then panel_disposed h1 else h1).
  intros h2 Hok2. unfold postUpdateTrack.
  destruct (spotifyPanel (world h2)); exact Hok2.
Qed.

(** X16. The timer stays in order through every step the panel code takes:
    if at most one interval timer runs, it is the one [updateInterval]
    holds and none runs without a panel, then the same is true after
    [createOrShowSpotifyWidget] (whether or not the page could be read),
    after the disposal of the panel, [hide], [deactivate], a tick of the
    timer and a message of the webview.  It is true of a host that has just
    loaded the module. *)
Theorem timer_invariant h :
  (forall w setting, timer_ok (host_fresh w setting))
  /\ (timer_ok h ->
      (forall content, timer_ok (snd (createOrShowSpotifyWidget content h)))
      /\ timer_ok (panel_disposed h)
      /\ timer_ok (hide h)
      /\ timer_ok (deactivate h)
      /\ (forall now net disposedMeanwhile,
            timer_ok (snd (onInterval now net disposedMeanwhile h)))
      /\ (forall command outcome now net disposedMeanwhile,
            timer_ok (snd (onDidReceiveMessage command outcome now net
                             disposedMeanwhile h)))).
Proof.
  split; [intros w setting; exact I|].
  intros Hok. split; [|split; [|split; [|split; [|split]]]].
  - intros content. unfold createOrShowSpotifyWidget.
    destruct (spotifyPanel (world h)) eqn:Hp; [exact Hok|].
    pose proof (timer_ok_no_panel h Hok Hp) as Hnone.
    destruct content as [html|e]; unfold timer_ok; cbn; rewrite Hnone; auto.
  - apply panel_disposed_ok, Hok.
  - unfold hide. destruct (spotifyPanel (world h)); [apply panel_disposed_ok|]; exact Hok.
  - unfold deactivate. destruct (updateInterval (world h)) as [t|] eqn:Hu; [|exact Hok].
    unfold timer_ok. cbn. rewrite (timer_ok_cleared h t Hok Hu). exact I.
  - intros now net disposedMeanwhile. unfold onInterval.
    destruct (spotifyPanel (world h)); [apply fetchAndPost_ok|]; exact Hok.
  - intros command outcome now net disposedMeanwhile. unfold onDidReceiveMessage.
    repeat (match goal with
            | |- context [if strict_eq ?a ?b then _ else _] =>
                destruct (strict_eq a b)
            end);
      try exact Hok; try (apply fetchAndPost_ok; exact Hok);
      destruct outcome as [e|[e|]]; exact Hok.
Qed.


(** X17. Once [spotifyPanel] is set, [createOrShowSpotifyWidget] only
    reveals the panel: it creates nothing and starts no timer.  The
    variable is set as soon as the panel is created, before the page is
    read, so this holds after a first call whatever became of the page:
    after a first call that could not read the page, no later call starts
    the polling. *)
Theorem createOrShowSpotifyWidget_again content h :
  spotifyPanel (world h) = false ->
  spotifyPanel (world (snd (createOrShowSpotifyWidget content h))) = true
  /\ (forall e, content = FileError e ->
        fst (createOrShowSpotifyWidget content h) = Thrown e
        /\ timers (snd (createOrShowSpotifyWidget content h)) = timers h
        /\ updateInterval (world (snd (createOrShowSpotifyWidget content h)))
           = updateInterval (world h))
  /\ (forall html, content = FileContent html ->
        fst (createOrShowSpotifyWidget content h) = Returned tt
        /\ timers (snd (createOrShowSpotifyWidget content h))
           = issued h + 1 :: timers h
        /\ updateInterval (world (snd (createOrShowSpotifyWidget content h)))
           = Some (issued h + 1)
        /\ asked (snd (createOrShowSpotifyWidget content h))
           = (asked h ++ [CreateWebviewPanel; SetHtml html;
                          SetInterval (issued h + 1) (refreshInterval h)])%list)
  /\ forall content2,
       createOrShowSpotifyWidget content2 (snd (createOrShowSpotifyWidget content h))
       = (Returned tt, ask Reveal (snd (createOrShowSpotifyWidget content h))).
Proof.
  intros Hp.
  assert (Hset : spotifyPanel (world (snd (createOrShowSpotifyWidget content h))) = true).
  { unfold createOrShowSpotifyWidget. rewrite Hp. destruct content; reflexivity. }
  split; [exact Hset|]. split; [|split].
  - intros e ->. unfold createOrShowSpotifyWidget. rewrite Hp. cbn. auto.
  - intros html ->. unfold createOrShowSpotifyWidget. rewrite Hp. cbn.
    rewrite <- !app_assoc. auto.
  - intros content2. unfold createOrShowSpotifyWidget at 1. rewrite Hset. reflexivity.
Qed.

(** X18. A tick of the timer delivers what the poll returned: with a panel
    that stays, the snapshot [getCurrentTrack] returns, degraded or not, is
    posted to the webview, once.  Without a panel the tick does nothing at
    all.  When the panel is disposed while the poll is awaited, nothing is
    posted and the callback throws the engine's [TypeError]. *)
Theorem onInterval_delivers now net h :
  (spotifyPanel (world h) = false ->
   forall disposedMeanwhile, onInterval now net disposedMeanwhile h = (Returned tt, h))
  /\ (spotifyPanel (world h) = true ->
      exists snap w',
        getCurrentTrack now net (world h) = (Returned snap, w')
        /\ onInterval now net false h
           = (Returned tt, ask (PostMessage snap) (set_world w' h))
        /\ (disposeRegistered h = true ->
            onInterval now net true h
            = (Thrown (TypeError "Cannot read properties of null (reading 'webview')"),
               panel_disposed (set_world w' h)))).
Proof.
  split.
  - intros Hp d. unfold onInterval. rewrite Hp. reflexivity.
  - intros Hp.
    destruct (getCurrentTrack_returns now net (world h)) as (snap & w' & Hrun).
    destruct (getCurrentTrack_outside now net (world h)) as (Hpanel & _).
    rewrite Hrun in Hpanel. cbn [snd] in Hpanel.
    exists snap, w'. split; [exact Hrun|].
    unfold onInterval, fetchAndPost, lift. rewrite Hp, Hrun. split.
    + unfold postUpdateTrack. cbn [world set_world]. rewrite Hpanel, Hp. reflexivity.
    + intros Hreg. unfold postUpdateTrack, panel_disposed.
      cbn [disposeRegistered set_world]. rewrite Hreg.
      unfold onDidDispose at 1.
      cbn [world set_world set_disposeRegistered updateInterval set_spotifyPanel].
      destruct (updateInterval w'); reflexivity.
Qed.

(** X19. Disposing the panel stops the polling: after the disposal of a
    panel whose callback is registered, no timer runs, [spotifyPanel] and
    [updateInterval] are [null], a tick of a timer that still fires does
    nothing, and a second disposal changes nothing. *)
Theorem panel_disposed_stops_polling h :
  timer_ok h ->
  disposeRegistered h = true ->
  timers (panel_disposed h) = []
  /\ spotifyPanel (world (panel_disposed h)) = false
  /\ updateInterval (world (panel_disposed h)) = None
  /\ (forall now net disposedMeanwhile,
        onInterval now net disposedMeanwhile (panel_disposed h)
        = (Returned tt, panel_disposed h))
  /\ panel_disposed (panel_disposed h) = panel_disposed h
  /\ hide (panel_disposed h) = panel_disposed h.
Proof.
  intros Hok Hreg.
  assert (Hd : panel_disposed h = onDidDispose (set_disposeRegistered false h))
    by (unfold panel_disposed; rewrite Hreg; reflexivity).
  destruct (onDidDispose_stops (set_disposeRegistered false h) Hok) as (Ht & Hp & Hu).
  rewrite <- Hd in Ht, Hp, Hu.
  assert (Hunreg : disposeRegistered (panel_disposed h) = false).
  { rewrite Hd. unfold onDidDispose.
    cbn [world set_world set_disposeRegistered updateInterval set_spotifyPanel].
    destruct (updateInterval (world h)); reflexivity. }
  repeat split; try assumption.
  - intros now net d. unfold onInterval. rewrite Hp. reflexivity.
  - unfold panel_disposed at 1. rewrite Hunreg. reflexivity.
  - unfold hide. rewrite Hp. reflexivity.
Qed.

(** X20. A message of the webview is dispatched on its [command]: the
    three controls run the matching keystroke command and post nothing,
    leaving everything of the module but the trace as it was, and a
    message with any other command, except [getCurrentTrack], is ignored
    altogether. *)
Theorem onDidReceiveMessage_dispatch outcome now net disposedMeanwhile h :
  (forall name command,
     (name, command) = ("playPause", PlayPause)
     \/ (name, command) = ("next", Next)
     \/ (name, command) = ("previous", Previous) ->
     exists rest,
       onDidReceiveMessage (JStr name) outcome now net disposedMeanwhile h
       = (Returned tt,
          set_world (snd (sendSpotifyCommand outcome command (world h))) h)
       /\ only_trace (world h) (snd (sendSpotifyCommand outcome command (world h)))
       /\ trace (snd (sendSpotifyCommand outcome command (world h)))
          = (trace (world h) ++ Exec (command_line command) :: rest)%list)
  /\ (forall command,
        command <> JStr "playPause" -> command <> JStr "next" ->
        command <> JStr "previous" -> command <> JStr "getCurrentTrack" ->
        onDidReceiveMessage command outcome now net disposedMeanwhile h
        = (Returned tt, h)).
Proof.
  split.
  - intros name command Hcase.
    destruct Hcase as [H|[H|H]]; injection H as -> ->;
      destruct outcome as [e|[e|]];
      (eexists; split; [reflexivity|]; split; [repeat split|]);
      unfold sendSpotifyCommand; unfold_monad; cbn [snd trace emit];
      rewrite <- ?app_assoc; reflexivity.
  - intros command H1 H2 H3 H4. unfold onDidReceiveMessage.
    assert (Hne : forall s, command <> JStr s -> strict_eq command (JStr s) = false).
    { intros s Hs. destruct (strict_eq command (JStr s)) eqn:Heq; [|reflexivity].
      apply strict_eq_true in Heq. contradiction. }
    rewrite (Hne _ H1), (Hne _ H2), (Hne _ H3), (Hne _ H4). reflexivity.
Qed.


(** ** The earlier authenticator *)

(** The earlier inline exchange is the later completion with the error
    swallowed instead of thrown again. *)
Lemma earlier_authenticate_run clientId values choice codeInput now net w :
  earlier_authenticate clientId values choice codeInput now net w =
    let v := generateRandomString 128 values in
    let prompted := emit earlier_prompt w in
    if bool_decide (choice = Some "Open Spotify Login") then
      let opened :=
        emit ShowInputBox
          (emit (OpenExternal (authUrl clientId (generateCodeChallenge v))) prompted) in
      match codeInput with
      | Some input =>
          if negb (String.eqb input "") then
            match completeAuthentication now net (trim input) (JStr v) clientId opened with
            | (Thrown e, w') => (Returned tt, w')
            | r => r
            end
          else (Returned tt, opened)
      | None => (Returned tt, opened)
      end
    else (Returned tt, prompted).
Proof.
  cbv zeta. unfold earlier_authenticate.
  unfold mbind at 1, M_bind at 1, log at 1, modify at 1.
  destruct (bool_decide (choice = Some "Open Spotify Login")); [|reflexivity].
  unfold mbind at 1, M_bind at 1, log at 1, modify at 1.
  unfold mbind at 1, M_bind at 1, log at 1, modify at 1.
  destruct codeInput as [input|]; [|reflexivity].
  destruct (negb (String.eqb input "")); [|reflexivity].
  unfold completeAuthentication, try_catch.
  match goal with
  | |- match ?body ?w0 with _ => _ end = _ =>
      destruct (body w0) as [[[]|e|] w']
  end; reflexivity.
Qed.

(** X21. Without a client identifier (the setting is unset, [null] or
    empty) the earlier [authenticateSpotify] stops at once: it asks the user
    to set it, opens the settings if the user picks "Open Settings", and
    does nothing else: no verifier is generated or stored, no URL is opened
    and nothing is sent. *)
Theorem earlier_authenticateSpotify_needs_clientId
    values response choice codeInput now net h :
  truthy (earlier_getClientId (world h)) = false ->
  earlier_authenticateSpotify values response choice codeInput now net h
  = (Returned tt,
     mkHost
       (emit (ShowInformationMessage
                "Please set your Spotify Client ID in settings first."
                ["Open Settings"]) (world h))
       (refreshIntervalSetting h) (timers h) (issued h) (disposeRegistered h)
       (asked h ++
        if bool_decide (response = Some "Open Settings")
        then [ExecuteCommand "workbench.action.openSettings" "spotifyWidget.clientId"]
        else [])).
Proof.
  intros Hid. unfold earlier_authenticateSpotify. rewrite Hid. cbn [negb].
  destruct (bool_decide (response = Some "Open Settings")).
  - reflexivity.
  - unfold set_world. rewrite app_nil_r. reflexivity.
Qed.

(** X22. The earlier [authenticateSpotify] never throws and never stores a
    verifier: whatever the dialogs and the network do, it returns or stays
    pending, and the pending verifier, its durable copy and everything
    else outside the credential are as before.  When the exchange of a
    pasted code is rejected, it returns with the access token, the expiry
    and the durable store unchanged. *)
Theorem earlier_authenticateSpotify_contained
    values response choice codeInput now net h :
  (forall e,
     fst (earlier_authenticateSpotify values response choice codeInput now net h)
     <> Thrown e)
  /\ outside_credential (world h)
       (world (snd (earlier_authenticateSpotify values response choice codeInput
                      now net h)))
  /\ (forall e,
        exchange_fails net e ->
        fst (earlier_authenticateSpotify values response choice codeInput now net h)
        = Returned tt
        /\ same_credential (world h)
             (world (snd (earlier_authenticateSpotify values response choice
                            codeInput now net h)))).
Proof.
  unfold earlier_authenticateSpotify.
  destruct (negb (truthy (earlier_getClientId (world h)))).
  { destruct (bool_decide (response = Some "Open Settings"));
      (split; [discriminate|]; split; [repeat split|]; intros e _; split;
       [reflexivity | repeat split]). }
  unfold lift. rewrite earlier_authenticate_run. cbv zeta.
  set (cid := earlier_getClientId (world h)).
  set (v := generateRandomString 128 values).
  destruct (bool_decide (choice = Some "Open Spotify Login"));
    [|split; [discriminate|]; split; [repeat split|]; intros e _; split;
      [reflexivity | repeat split]].
  destruct codeInput as [input|];
    [|split; [discriminate|]; split; [repeat split|]; intros e _; split;
      [reflexivity | repeat split]].
  destruct (negb (String.eqb input ""));
    [|split; [discriminate|]; split; [repeat split|]; intros e _; split;
      [reflexivity | repeat split]].
  match goal with
  | |- context [completeAuthentication ?n ?t ?c ?vv ?i ?w0] =>
      pose proof (completeAuthentication_frame n t c vv i w0) as [Hout _];
      pose proof (completeAuthentication_rejected n t c vv i w0) as Hrej;
      destruct (completeAuthentication n t c vv i w0) as [[[]|e0|] w'] eqn:Hrun
  end; cbn [fst snd world set_world] in *.
  - split; [discriminate|]. split; [exact Hout|].
    intros e He. specialize (Hrej e (exchange_fails_thrown _ _ _ _ _ _ He)).
    discriminate Hrej.
  - split; [discriminate|]. split; [exact Hout|].
    intros e He. specialize (Hrej e (exchange_fails_thrown _ _ _ _ _ _ He)).
    injection Hrej as _ ->. split; [reflexivity | repeat split].
  - split; [discriminate|]. split; [exact Hout|].
    intros e He. specialize (Hrej e (exchange_fails_thrown _ _ _ _ _ _ He)).
    discriminate Hrej.
Qed.

End Extension.

(** * Examples *)

(** ** Test vectors of SHA-256 and of the challenge *)

Example sha256_abc :
  hex_of_bytes (sha256_digest "abc")
  = "ba7816bf8f01cfea414140de5dae2223b00361a396177a9cb410ff61f20015ad".
Proof. vm_compute. reflexivity. Qed.

Example sha256_empty :
  hex_of_bytes (sha256_digest "")
  = "e3b0c44298fc1c149afbf4c8996fb92427ae41e4649b934ca495991b7852b855".
Proof. vm_compute. reflexivity. Qed.

Example sha256_two_blocks :
  hex_of_bytes
    (sha256_digest "abcdbcdecdefdefgefghfghighijhijkijkljklmklmnlmnomnopnopq")
  = "248d6a61d20638b8e5c026930c3e6039a33ce45964ff2167f6ecedd419db06c1".
Proof. vm_compute. reflexivity. Qed.

(** The verifier and the challenge of RFC 7636, appendix B. *)
Example challenge_rfc7636 :
  generateCodeChallenge "dBjftJeZ4CVP-mB92K27uhbUJU1p1r_wW1gFWFOEjXk"
  = "E9Melhoa2OwvFrEMTJguCHaoeK1t8URWbuGJSstw-cM".
Proof. vm_compute. reflexivity. Qed.

Example generateRandomString_wraps :
  generateRandomString 6 [0; 25; 26; 61; 62; 255; 7] = "AZa9AH".
Proof. vm_compute. reflexivity. Qed.

(** ** The poller on concrete worlds *)

(** Each of the five degraded snapshots is produced. *)
Example poll_token_expired :
  fst (getCurrentTrack demo_parse demo_number 5000 (Answered 200 "track") w_authenticated)
  = Returned (degraded TokenExpired).
Proof. reflexivity. Qed.

Example poll_not_authenticated :
  getCurrentTrack demo_parse demo_number 5000 (Answered 200 "track") w_fresh
  = (Returned (degraded NotAuthenticated), w_fresh).
Proof. reflexivity. Qed.

Example poll_no_track :
  fst (getCurrentTrack demo_parse demo_number 4999 (Answered 200 "null") w_authenticated)
  = Returned (degraded NoTrackPlaying).
Proof. reflexivity. Qed.

Example poll_unauthorized :
  fst (getCurrentTrack demo_parse demo_number 4999
         (Answered 401 "The access token expired") w_authenticated)
  = Returned (degraded AuthenticationExpired).
Proof. vm_compute. reflexivity. Qed.

Example poll_server_error :
  fst (getCurrentTrack demo_parse demo_number 4999 (Answered 503 "") w_authenticated)
  = Returned (degraded Connecting).
Proof. vm_compute. reflexivity. Qed.

(** A body of the wrong shape is caught like any failure of the request. *)
Example poll_item_without_artists :
  getCurrentTrack (fun _ => Some (JObj [("item", JObj [("id", JStr "x")])]))
    demo_number 4999 (Answered 200 "") w_authenticated
  = (Returned (degraded Connecting),
     emit (ShowErrorMessage
             "Spotify API error: Cannot read properties of undefined (reading 'map')")
       (set_lastTrackId (JStr "x")
          (emit (poll_request w_authenticated) w_authenticated))).
Proof. vm_compute. reflexivity. Qed.

(** ** Witnesses *)

Lemma getCurrentTrack_token_expired_witness :
  truthy (tokenExpiresAt w_authenticated) = true
  /\ js_ge demo_number 5000 (tokenExpiresAt w_authenticated) = true
  /\ getCurrentTrack demo_parse demo_number 5000 Silent w_authenticated
     = (Returned (degraded TokenExpired), w_authenticated).
Proof.
  split; [reflexivity|]. split; [reflexivity|].
  apply (getCurrentTrack_token_expired demo_parse demo_number 5000 Silent
           w_authenticated); reflexivity.
Defined.

Lemma getCurrentTrack_request_failure_witness :
  reaches_request demo_number 4999 w_authenticated = true
  /\ getCurrentTrack demo_parse demo_number 4999 Silent w_authenticated
     = (Returned (degraded Connecting),
        emit (ShowErrorMessage "Spotify API error: Request timeout")
          (emit (poll_request w_authenticated) w_authenticated)).
Proof.
  split; [reflexivity|].
  apply (getCurrentTrack_request_failure demo_parse demo_number 4999
           w_authenticated).
  reflexivity.
Defined.

Lemma getCurrentTrack_no_track_witness :
  reaches_request demo_number 4999 w_authenticated = true
  /\ getCurrentTrack demo_parse demo_number 4999 (Answered 204 "") w_authenticated
     = (Returned (degraded NoTrackPlaying),
        emit (poll_request w_authenticated) w_authenticated).
Proof.
  split; [reflexivity|].
  apply (getCurrentTrack_no_track demo_parse demo_number 4999 w_authenticated).
  reflexivity.
Defined.

Lemma getCurrentTrack_maps_track_witness :
  reaches_request demo_number 4999 w_authenticated = true
  /\ demo_parse "track" = Some demo_payload
  /\ named [JObj [("name", JStr "Artist A")]; JObj [("name", JStr "Artist B")]]
       ["Artist A"; "Artist B"]
  /\ exists snap w',
       getCurrentTrack demo_parse demo_number 4999 (Answered 200 "track")
         w_authenticated = (Returned snap, w')
       /\ artist snap = JStr "Artist A, Artist B".
Proof.
  split; [reflexivity|]. split; [reflexivity|]. split; [reflexivity|].
  destruct (getCurrentTrack_maps_track demo_parse demo_number 4999 w_authenticated
              "track" demo_payload
              [JObj [("name", JStr "Artist A")]; JObj [("name", JStr "Artist B")]]
              ["Artist A"; "Artist B"]
              [JObj [("url", JStr "https://i.scdn.co/image/1")]]
              eq_refl eq_refl eq_refl eq_refl eq_refl)
    as (snap & w' & Hrun & _ & _ & _ & Hartist & _).
  exists snap, w'. split; [exact Hrun | exact Hartist].
Defined.

Lemma completeAuthentication_credential_witness :
  demo_parse "tokens" = Some demo_tokens
  /\ field demo_tokens "expires_in" = JNum 3600
  /\ safe_integer 1000
  /\ safe_integer (3600 * 1000)
  /\ safe_integer (1000 + 3600 * 1000)
  /\ (exists w',
        completeAuthentication demo_parse demo_number 1000 (Answered 200 "tokens")
          "AQD-code" (JStr "verifier") (JStr "client") w_pending = (Returned tt, w')
        /\ accessToken w' = JStr "BQD-token"
        /\ tokenExpiresAt w' = JNum 3601000)
  /\ parse_empty_object "{}" = Some (JObj [])
  /\ nullish (JObj []) = false
  /\ field (JObj []) "expires_in" = JUndefined
  /\ (exists w',
        completeAuthentication parse_empty_object demo_number 1000
          (Answered 200 "{}") "AQD-code" (JStr "verifier") (JStr "client")
          w_authenticated = (Returned tt, w')
        /\ accessToken w' = JUndefined
        /\ tokenExpiresAt w' = JNaN)
  /\ exchange_fails (Failed (Error "ECONNRESET")) (Error "ECONNRESET")
  /\ exists w',
       completeAuthentication demo_parse demo_number 1000
         (Failed (Error "ECONNRESET")) "AQD-code" (JStr "verifier") (JStr "client")
         w_authenticated = (Thrown (Error "ECONNRESET"), w')
       /\ same_credential w_authenticated w'.
Proof.
  assert (H1 : safe_integer 1000) by (unfold safe_integer; lia).
  assert (H2 : safe_integer (3600 * 1000)) by (unfold safe_integer; lia).
  assert (H3 : safe_integer (1000 + 3600 * 1000)) by (unfold safe_integer; lia).
  assert (H4 : exchange_fails (Failed (Error "ECONNRESET")) (Error "ECONNRESET"))
    by (left; reflexivity).
  split; [reflexivity|]. split; [reflexivity|].
  split; [exact H1|]. split; [exact H2|]. split; [exact H3|].
  split.
  { destruct (proj1 (completeAuthentication_credential demo_parse demo_number 1000
                       "AQD-code" (JStr "verifier") (JStr "client") w_pending)
                "tokens" demo_tokens 3600 eq_refl eq_refl H1 H2 H3)
      as (w' & Hrun & Htoken & Hexpiry & _).
    exists w'. split; [exact Hrun|]. split; [exact Htoken | exact Hexpiry]. }
  split; [reflexivity|]. split; [reflexivity|]. split; [reflexivity|].
  split.
  { destruct (proj1 (proj2 (completeAuthentication_credential parse_empty_object
                              demo_number 1000 "AQD-code" (JStr "verifier")
                              (JStr "client") w_authenticated))
                "{}" (JObj []) eq_refl eq_refl eq_refl)
      as (w' & Hrun & Htoken & Hexpiry & _).
    exists w'. split; [exact Hrun|]. split; [exact Htoken | exact Hexpiry]. }
  split; [exact H4|].
  destruct (proj2 (proj2 (completeAuthentication_credential demo_parse demo_number
                            1000 "AQD-code" (JStr "verifier") (JStr "client")
                            w_authenticated))
              (Failed (Error "ECONNRESET")) (Error "ECONNRESET") H4)
    as (w' & Hrun & _ & Hsame).
  exists w'. split; [exact Hrun | exact Hsame].
Defined.

Lemma handleAuthCallback_verifier_witness :
  searchParams_get "code" (query uri_callback) = JStr "AQD-code"
  /\ "AQD-code" <> ""
  /\ truthy (pending_verifier w_pending) = true
  /\ exists w1,
       handleAuthCallback demo_parse demo_number 1000 (Answered 200 "tokens")
         uri_callback w_pending = (Returned tt, w1)
       /\ pendingCodeVerifier w1 = JNull
       /\ handleAuthCallback demo_parse demo_number 2000 (Answered 200 "tokens")
            uri_callback w1 = (Returned tt, emit session_expired w1).
Proof.
  assert (Hne : "AQD-code" <> "") by discriminate.
  split; [reflexivity|]. split; [exact Hne|]. split; [reflexivity|].
  destruct (proj1 (handleAuthCallback_verifier demo_parse demo_number 1000
                     uri_callback w_pending "AQD-code" eq_refl Hne eq_refl)
              "tokens" demo_tokens eq_refl eq_refl)
    as (w1 & Hrun & Hcleared & _ & Hsecond).
  exists w1. split; [exact Hrun|]. split; [exact Hcleared|].
  apply Hsecond. reflexivity.
Defined.

(** ** Counterexamples *)

(** With no expiry recorded and a token present, the poll is not answered
    "token expired": the request is sent, and here a 204 gives "no track
    playing". *)
Lemma getCurrentTrack_no_expiry_polls :
  tokenExpiresAt w_no_expiry = JUndefined
  /\ getCurrentTrack demo_parse demo_number 5000 (Answered 204 "") w_no_expiry
     = (Returned (degraded NoTrackPlaying),
        emit (HttpsGet "api.spotify.com" "/v1/me/player/currently-playing"
                "Bearer BQD-token") w_no_expiry)
  /\ fst (getCurrentTrack demo_parse demo_number 5000 (Answered 204 "") w_no_expiry)
     <> Returned (degraded TokenExpired)
  /\ trace (snd (getCurrentTrack demo_parse demo_number 5000 (Answered 204 "")
                   w_no_expiry))
     <> trace w_no_expiry.
Proof.
  split; [reflexivity|]. split; [reflexivity|]. split; discriminate.
Qed.

(** After a completion attempt that fails (the provider answers 400), the
    verifier is still stored in both places, and a second redirect is not
    turned away: it sends the code to the provider again. *)
Lemma handleAuthCallback_failure_keeps_verifier :
  fst (handleAuthCallback demo_parse demo_number 1000
         (Answered 400 "invalid_grant") uri_callback w_pending) = Returned tt
  /\ pendingCodeVerifier
       (snd (handleAuthCallback demo_parse demo_number 1000
               (Answered 400 "invalid_grant") uri_callback w_pending))
     = JStr "verifier"
  /\ globalState
       (snd (handleAuthCallback demo_parse demo_number 1000
               (Answered 400 "invalid_grant") uri_callback w_pending))
       !! "pendingCodeVerifier" = Some (JStr "verifier")
  /\ trace
       (snd (handleAuthCallback demo_parse demo_number 2000
               (Answered 400 "invalid_grant") uri_callback
               (snd (handleAuthCallback demo_parse demo_number 1000
                       (Answered 400 "invalid_grant") uri_callback w_pending))))
     = [token_request "AQD-code" (JStr "verifier") (JStr "ac8d0a8761004cfbb0b582950be8314c");
        ShowErrorMessage "Authentication failed: Token exchange failed: invalid_grant";
        ShowErrorMessage
          "Failed to handle authentication callback: Token exchange failed: invalid_grant";
        token_request "AQD-code" (JStr "verifier") (JStr "ac8d0a8761004cfbb0b582950be8314c");
        ShowErrorMessage "Authentication failed: Token exchange failed: invalid_grant";
        ShowErrorMessage
          "Failed to handle authentication callback: Token exchange failed: invalid_grant"].
Proof.
  split; [reflexivity|]. split; [reflexivity|]. split; reflexivity.
Qed.

(** A 200 whose body is the empty object: the completion returns as a
    success with no error shown, and the valid credential, a token that
    expires at 5000, is replaced by undefined and NaN in the variables; of
    the durable store, the token is removed and the expiry is NaN. The
    credential is neither a new access token with the instant
    [now + expires_in], nor what it was. *)
Lemma completeAuthentication_unvalidated_response :
  parse_empty_object "{}" = Some (JObj [])
  /\ accessToken w_authenticated = JStr "BQD-token"
  /\ tokenExpiresAt w_authenticated = JNum 5000
  /\ completeAuthentication parse_empty_object demo_number 1000 (Answered 200 "{}")
       "AQD-code" (JStr "verifier") (JStr "client") w_authenticated
     = (Returned tt,
        mkWorld true (Some 1) JUndefined JNaN JNull JNull
          (<["spotifyTokenExpiresAt" := JNaN]> ∅) JUndefined
          [token_request "AQD-code" (JStr "verifier") (JStr "client");
           ShowInformationMessage "Successfully authenticated with Spotify!" []])
  /\ ~ same_credential w_authenticated
        (snd (completeAuthentication parse_empty_object demo_number 1000
                (Answered 200 "{}") "AQD-code" (JStr "verifier") (JStr "client")
                w_authenticated))
  /\ (forall token expiry,
        accessToken
          (snd (completeAuthentication parse_empty_object demo_number 1000
                  (Answered 200 "{}") "AQD-code" (JStr "verifier") (JStr "client")
                  w_authenticated)) <> JStr token
        /\ tokenExpiresAt
             (snd (completeAuthentication parse_empty_object demo_number 1000
                     (Answered 200 "{}") "AQD-code" (JStr "verifier") (JStr "client")
                     w_authenticated)) <> JNum expiry).
Proof.
  assert (Hrun :
    completeAuthentication parse_empty_object demo_number 1000 (Answered 200 "{}")
      "AQD-code" (JStr "verifier") (JStr "client") w_authenticated
    = (Returned tt,
       mkWorld true (Some 1) JUndefined JNaN JNull JNull
         (<["spotifyTokenExpiresAt" := JNaN]> ∅) JUndefined
         [token_request "AQD-code" (JStr "verifier") (JStr "client");
          ShowInformationMessage "Successfully authenticated with Spotify!" []])).
  { vm_compute. reflexivity. }
  split; [reflexivity|]. split; [reflexivity|]. split; [reflexivity|].
  split; [exact Hrun|]. rewrite Hrun. cbn [snd accessToken tokenExpiresAt].
  split.
  - intros (Htoken & _). discriminate Htoken.
  - intros token expiry. split; discriminate.
Qed.

Example sha256_constants :
  length SHA256.K = 64%nat /\ length SHA256.H0 = 8%nat
  /\ nth 0 SHA256.K 0 = 0x428a2f98 /\ nth 63 SHA256.K 0 = 0xc67178f2
  /\ nth 0 SHA256.H0 0 = 0x6a09e667 /\ nth 7 SHA256.H0 0 = 0x5be0cd19.
Proof. vm_compute. repeat split. Qed.

(** ** Witnesses of the further properties *)

Lemma generateRandomString_verifier_witness :
  (6 <= length [0; 25; 26; 61; 62; 255; 7])%nat
  /\ String.length (generateRandomString 6 [0; 25; 26; 61; 62; 255; 7]) = 6%nat.
Proof.
  assert (H : (6 <= length [0; 25; 26; 61; 62; 255; 7])%nat) by (simpl; lia).
  split; [exact H|].
  apply (generateRandomString_verifier 6 [0; 25; 26; 61; 62; 255; 7] H).
Defined.

Lemma completeAuthentication_empty_bodies_witness :
  demo_parse "null" = Some JNull
  /\ fst (completeAuthentication demo_parse demo_number 1000 (Answered 200 "null")
            "AQD-code" (JStr "verifier") (JStr "client") w_pending)
     = Thrown (TypeError "Cannot read properties of null (reading 'access_token')").
Proof.
  split; [reflexivity|].
  rewrite (proj1 (completeAuthentication_empty_bodies demo_parse demo_number 1000
                    "AQD-code" (JStr "verifier") (JStr "client") w_pending "null")
             eq_refl).
  reflexivity.
Defined.

Lemma handleAuthCallback_no_code_witness :
  truthy (searchParams_get "code" (query uri_no_code)) = false
  /\ handleAuthCallback demo_parse demo_number 1000 (Answered 200 "tokens")
       uri_no_code w_pending
     = (Returned tt,
        emit (ShowErrorMessage "No authorization code found in callback") w_pending).
Proof.
  split; [reflexivity|].
  apply (handleAuthCallback_no_code demo_parse demo_number 1000
           (Answered 200 "tokens") uri_no_code w_pending).
  reflexivity.
Defined.

Lemma authenticateSpotify_binds_challenge_witness :
  (128 <= length demo_random)%nat
  /\ " AQD-code " <> ""
  /\ trim " AQD-code " = "AQD-code"
  /\ exists rest,
       trace (snd (authenticateSpotify demo_parse demo_number demo_random
                     (Some "Open Spotify Login") (Some " AQD-code ") 1000
                     (Answered 200 "tokens") w_fresh))
       = (trace w_fresh ++
          [login_prompt;
           OpenExternal (authUrl (client_id w_fresh)
                           (generateCodeChallenge (generateRandomString 128 demo_random)));
           ShowInputBox;
           token_request (trim " AQD-code ")
             (JStr (generateRandomString 128 demo_random)) (client_id w_fresh)]
          ++ rest)%list.
Proof.
  assert (Hlen : (128 <= length demo_random)%nat) by (vm_compute; lia).
  assert (H : " AQD-code " <> "") by discriminate.
  split; [exact Hlen|]. split; [exact H|]. split; [reflexivity|].
  apply (authenticateSpotify_binds_challenge demo_parse demo_number demo_random
           " AQD-code " 1000 (Answered 200 "tokens") w_fresh Hlen H).
Defined.

Lemma authenticateSpotify_without_code_witness :
  (Some "Cancel" <> Some "Open Spotify Login"
   \/ @None string = None \/ @None string = Some "")
  /\ exists w',
       authenticateSpotify demo_parse demo_number [1; 2; 3] (Some "Cancel") None
         1000 Silent w_authenticated = (Returned tt, w')
       /\ accessToken w' = accessToken w_authenticated.
Proof.
  assert (H : Some "Cancel" <> Some "Open Spotify Login"
              \/ @None string = None \/ @None string = Some "")
    by (right; left; reflexivity).
  split; [exact H|].
  destruct (authenticateSpotify_without_code demo_parse demo_number [1; 2; 3]
              (Some "Cancel") None 1000 Silent w_authenticated H)
    as (w' & Hrun & Htoken & _).
  exists w'. split; [exact Hrun | exact Htoken].
Defined.

Lemma redirect_uses_stored_verifier_witness :
  [1; 2; 3] <> []
  /\ searchParams_get "code" (query uri_callback) = JStr "AQD-code"
  /\ "AQD-code" <> ""
  /\ exists rest,
       trace (snd (handleAuthCallback demo_parse demo_number 2000
                     (Answered 200 "tokens") uri_callback
                     (restart (snd (authenticateSpotify demo_parse demo_number
                                      [1; 2; 3] (Some "Open Spotify Login") None
                                      1000 Silent w_fresh)))))
       = (trace (restart (snd (authenticateSpotify demo_parse demo_number
                                 [1; 2; 3] (Some "Open Spotify Login") None
                                 1000 Silent w_fresh)))
          ++ token_request "AQD-code" (JStr (generateRandomString 128 [1; 2; 3]))
               (client_id w_fresh) :: rest)%list.
Proof.
  assert (H1 : [1; 2; 3] <> @nil Z) by discriminate.
  assert (H2 : "AQD-code" <> "") by discriminate.
  split; [exact H1|]. split; [reflexivity|]. split; [exact H2|].
  apply (redirect_uses_stored_verifier demo_parse demo_number [1; 2; 3]
           (Some "Open Spotify Login") None 1000 Silent w_fresh 2000
           (Answered 200 "tokens") uri_callback "AQD-code" H1 eq_refl H2).
  right. reflexivity.
Defined.

Lemma getCurrentTrack_frame_witness :
  header_safe (accessToken w_authenticated)
  /\ reaches_request demo_number 4999 w_authenticated = true
  /\ outside_poll w_authenticated
       (snd (getCurrentTrack demo_parse demo_number 4999 (Answered 204 "")
               w_authenticated))
  /\ (trace (snd (getCurrentTrack demo_parse demo_number 4999 (Answered 204 "")
                    w_authenticated))
      = (trace w_authenticated ++ [poll_request w_authenticated])%list
      \/ exists msg,
           trace (snd (getCurrentTrack demo_parse demo_number 4999 (Answered 204 "")
                         w_authenticated))
           = (trace w_authenticated
              ++ [poll_request w_authenticated; ShowErrorMessage msg])%list).
Proof.
  assert (H : header_safe (accessToken w_authenticated)) by reflexivity.
  split; [exact H|]. split; [reflexivity|].
  exact (getCurrentTrack_frame demo_parse demo_number 4999 (Answered 204 "")
           w_authenticated H).
Defined.


Lemma in_sync_invariant_witness :
  in_sync w_authenticated
  /\ in_sync (snd (getCurrentTrack demo_parse demo_number 4999
                     (Answered 200 "track") w_authenticated)).
Proof.
  assert (H : in_sync w_authenticated) by (split; reflexivity).
  split; [exact H|].
  apply (in_sync_invariant demo_parse demo_number w_authenticated). exact H.
Defined.

Lemma getCurrentTrack_lastTrackId_witness :
  reaches_request demo_number 4999 w_authenticated = true
  /\ demo_parse "track" = Some demo_payload
  /\ truthy (field demo_payload "item") = true
  /\ lastTrackId (snd (getCurrentTrack demo_parse demo_number 4999
                         (Answered 200 "track") w_authenticated))
     = JStr "track-1".
Proof.
  split; [reflexivity|]. split; [reflexivity|]. split; [reflexivity|].
  apply (getCurrentTrack_lastTrackId demo_parse demo_number 4999 w_authenticated
           "track" demo_payload eq_refl eq_refl eq_refl).
Defined.

Lemma getCurrentTrack_ok_never_unauthorized_witness :
  reaches_request demo_number 4999 w_authenticated = true
  /\ demo_parse "null" = Some JNull
  /\ exists snap w',
       getCurrentTrack demo_parse demo_number 4999 (Answered 200 "null")
         w_authenticated = (Returned snap, w')
       /\ (error snap = JUndefined
           \/ snap = degraded NoTrackPlaying
           \/ snap = degraded Connecting).
Proof.
  split; [reflexivity|]. split; [reflexivity|].
  apply (getCurrentTrack_ok_never_unauthorized demo_parse demo_number 4999
           w_authenticated "null" JNull eq_refl eq_refl).
Defined.

Lemma timer_invariant_witness :
  timer_ok h_showing /\ timer_ok (hide h_showing).
Proof.
  assert (H : timer_ok h_showing) by (simpl; split; reflexivity).
  split; [exact H|].
  apply (timer_invariant demo_parse demo_number h_showing). exact H.
Defined.

Lemma createOrShowSpotifyWidget_again_witness :
  spotifyPanel (world h_idle) = false
  /\ createOrShowSpotifyWidget (FileContent "<html></html>")
       (snd (createOrShowSpotifyWidget (FileError (Error "ENOENT")) h_idle))
     = (Returned tt,
        ask Reveal (snd (createOrShowSpotifyWidget (FileError (Error "ENOENT")) h_idle))).
Proof.
  split; [reflexivity|].
  apply (createOrShowSpotifyWidget_again (FileError (Error "ENOENT")) h_idle eq_refl).
Defined.

Lemma onInterval_delivers_witness :
  spotifyPanel (world h_idle) = false
  /\ onInterval demo_parse demo_number 4999 (Answered 200 "track") false h_idle
     = (Returned tt, h_idle).
Proof.
  split; [reflexivity|].
  apply (proj1 (onInterval_delivers demo_parse demo_number 4999
                  (Answered 200 "track") h_idle) eq_refl).
Defined.

Lemma panel_disposed_stops_polling_witness :
  timer_ok h_showing
  /\ disposeRegistered h_showing = true
  /\ timers (panel_disposed h_showing) = [].
Proof.
  assert (H : timer_ok h_showing) by (simpl; split; reflexivity).
  split; [exact H|]. split; [reflexivity|].
  apply (panel_disposed_stops_polling demo_parse demo_number h_showing H eq_refl).
Defined.

Lemma onDidReceiveMessage_dispatch_witness :
  JStr "seek" <> JStr "playPause" /\ JStr "seek" <> JStr "next"
  /\ JStr "seek" <> JStr "previous" /\ JStr "seek" <> JStr "getCurrentTrack"
  /\ onDidReceiveMessage demo_parse demo_number (JStr "seek") (ExecCallback None)
       4999 Silent false h_showing
     = (Returned tt, h_showing).
Proof.
  assert (H1 : JStr "seek" <> JStr "playPause") by discriminate.
  assert (H2 : JStr "seek" <> JStr "next") by discriminate.
  assert (H3 : JStr "seek" <> JStr "previous") by discriminate.
  assert (H4 : JStr "seek" <> JStr "getCurrentTrack") by discriminate.
  repeat (split; [assumption|]).
  apply (proj2 (onDidReceiveMessage_dispatch demo_parse demo_number
                  (ExecCallback None) 4999 Silent false h_showing)
           (JStr "seek") H1 H2 H3 H4).
Defined.

Lemma earlier_authenticateSpotify_needs_clientId_witness :
  truthy (earlier_getClientId (world h_idle)) = false
  /\ fst (earlier_authenticateSpotify demo_parse demo_number [1; 2; 3]
            (Some "Open Settings") (Some "Open Spotify Login") (Some "AQD-code")
            1000 (Answered 200 "tokens") h_idle)
     = Returned tt.
Proof.
  split; [reflexivity|].
  rewrite (earlier_authenticateSpotify_needs_clientId demo_parse demo_number
             [1; 2; 3] (Some "Open Settings") (Some "Open Spotify Login")
             (Some "AQD-code") 1000 (Answered 200 "tokens") h_idle eq_refl).
  reflexivity.
Defined.

Lemma earlier_authenticateSpotify_contained_witness :
  exchange_fails (Failed (Error "ECONNRESET")) (Error "ECONNRESET")
  /\ fst (earlier_authenticateSpotify demo_parse demo_number [1; 2; 3] None
            (Some "Open Spotify Login") (Some "AQD-code") 1000
            (Failed (Error "ECONNRESET")) h_configured)
     = Returned tt.
Proof.
  assert (H : exchange_fails (Failed (Error "ECONNRESET")) (Error "ECONNRESET"))
    by (left; reflexivity).
  split; [exact H|].
  apply (proj2 (proj2 (earlier_authenticateSpotify_contained demo_parse demo_number
                         [1; 2; 3] None (Some "Open Spotify Login")
                         (Some "AQD-code") 1000 (Failed (Error "ECONNRESET"))
                         h_configured))
           (Error "ECONNRESET") H).
Defined.

(** ** The panel and the earlier authenticator on concrete hosts *)

Example show_then_tick :
  snd (onInterval demo_parse demo_number 4999 (Answered 204 "") false h_showing)
  = mkHost (emit (poll_request w_authenticated) w_authenticated) JUndefined [1] 1 true
      [CreateWebviewPanel; SetHtml "<html></html>"; SetInterval 1 (JNum 1000);
       PostMessage (degraded NoTrackPlaying)].
Proof. reflexivity. Qed.

Example show_uses_the_setting :
  asked (snd (createOrShowSpotifyWidget (FileContent "<html></html>") h_configured))
  = [CreateWebviewPanel; SetHtml "<html></html>"; SetInterval 1 (JNum 500)].
Proof. reflexivity. Qed.

Example hide_clears_the_timer :
  hide h_showing
  = mkHost (set_updateInterval None (set_spotifyPanel false w_authenticated))
      JUndefined [] 1 false
      [CreateWebviewPanel; SetHtml "<html></html>"; SetInterval 1 (JNum 1000);
       ClearInterval 1].
Proof. reflexivity. Qed.

Example earlier_failure_is_shown :
  trace (world (snd (earlier_authenticateSpotify demo_parse demo_number [1; 2; 3] None
                       (Some "Open Spotify Login") (Some "AQD-code") 1000
                       (Answered 400 "invalid_grant") h_configured)))
  = [earlier_prompt;
     OpenExternal (authUrl (JStr "my-client-id")
                     (generateCodeChallenge (generateRandomString 128 [1; 2; 3])));
     ShowInputBox;
     token_request "AQD-code" (JStr (generateRandomString 128 [1; 2; 3]))
       (JStr "my-client-id");
     ShowErrorMessage "Authentication failed: Token exchange failed: invalid_grant"].
Proof. vm_compute. reflexivity. Qed.
